(** * homebridge-remootio: the door-state reconciler of [remootio-accessory.ts]

    The source file holds two implementations of the class
    [RemootioHomebridgeAccessory]: the first one implements homebridge's
    [AccessoryPlugin] interface, the second one is built on a
    [PlatformAccessory].  Their handlers [setCurrentDoorState],
    [getCurrentStateHandler], [getTargetStateHandler] and
    [setTargetStateHandler] execute the same statements (they differ in the
    wording of the log lines only) and are embedded once; the two versions of
    [handleIncomingMessage] differ and are embedded separately, in the modules
    [Plugin] and [Platform].

    The object's mutable fields become a record that every handler takes and
    returns.  The remootio-api-client device is a record of its two readable
    flags and of the commands it has received so far; the calls of
    [updateValue] on the CurrentDoorState characteristic are recorded in a
    list as well.  The HAP callback of a handler is its return value.  Calls
    of [this.log] are the only statements of the handlers left out.  Of the
    constructor and of [configureDevice] the check of the configuration, the
    arguments of the device, the name of the service and the call of
    [connect] are kept; the registration of the handlers is what makes the
    inputs of an execution. *)

From Stdlib Require Import ZArith String List Bool Lia.
Import ListNotations.

Open Scope string_scope.
Open Scope Z_scope.
Open Scope list_scope.

(** ** Door state numbering *)

(** The classes [Characteristic.CurrentDoorState] and
    [Characteristic.TargetDoorState] come from the homebridge package, which
    is not part of the sources.  Their values are numbered here as the
    source's own table [garageDoorOpenerStateToString] lists the door states:
    the source indexes that table by the value of the characteristic. *)
Module CurrentDoorState.

(** Modelled from the spec: door state OPEN of the homebridge package's
    [CurrentDoorState], at index 0 of the source's table. *)
Definition OPEN : Z := 0.

(** Modelled from the spec: door state CLOSED of [CurrentDoorState], at
    index 1 of the source's table. *)
Definition CLOSED : Z := 1.

(** Modelled from the spec: door state OPENING of [CurrentDoorState], at
    index 2 of the source's table. *)
Definition OPENING : Z := 2.

(** Modelled from the spec: door state CLOSING of [CurrentDoorState], at
    index 3 of the source's table. *)
Definition CLOSING : Z := 3.

(** Modelled from the spec: door state STOPPED of [CurrentDoorState], at
    index 4 of the source's table. *)
Definition STOPPED : Z := 4.

End CurrentDoorState.

Module TargetDoorState.

(** Modelled from the spec: target OPEN of the homebridge package's
    [TargetDoorState], numbered as the current door state OPEN. *)
Definition OPEN : Z := 0.

(** Modelled from the spec: target CLOSED of [TargetDoorState], numbered as
    the current door state CLOSED. *)
Definition CLOSED : Z := 1.

End TargetDoorState.

Definition garageDoorOpenerStateToString : list string :=
  ["OPEN"; "CLOSED"; "OPENING"; "CLOSING"; "STOPPED"].

(** [private currentState = -1; private targetState = -1]: the value of a
    state that has not been received yet. *)
Definition UNKNOWN : Z := -1.

(** The test [this.currentState < 0] (and the same on [targetState]) by which
    the handlers recognise a state that has not been received. *)
Definition isUnknown (v : Z) : bool := v <? 0.

(** The door states of the data model, with the number that stands for each
    in the two state fields and the string by which the device reports it. *)
Inductive DoorState : Set :=
| Open | Closed | Opening | Closing | Stopped.

Definition doorStateValue (s : DoorState) : Z :=
  match s with
  | Open => CurrentDoorState.OPEN
  | Closed => CurrentDoorState.CLOSED
  | Opening => CurrentDoorState.OPENING
  | Closing => CurrentDoorState.CLOSING
  | Stopped => CurrentDoorState.STOPPED
  end.

Definition doorStateString (s : DoorState) : string :=
  match s with
  | Open => "open"
  | Closed => "closed"
  | Opening => "opening"
  | Closing => "closing"
  | Stopped => "stopped"
  end.

(** ** Payloads of the Remootio API *)

(** [RemootioEvent.event.data]: all its fields are optional. *)
Record RemootioEventData : Set := mkData {
  keyNr : option Z;
  keyType : option string;
  via : option string;
  timeOpen100ms : option Z
}.

(** [RemootioEvent.event].  The handler tests [state] against [undefined],
    so the field is optional here; [data] is optional in the interface. *)
Module Event.
Record t : Set := mk {
  cnt : Z;
  type : string;
  state : option string;
  t100ms : Z;
  data : option RemootioEventData
}.
End Event.

(** [RemootioResponse.response], [state] optional for the same reason. *)
Module Response.
Record t : Set := mk {
  type : string;
  id : Z;
  success : bool;
  state : option string;
  t100ms : Z;
  relayTriggered : bool;
  errorCode : string
}.
End Response.

(** [RemootioDecryptedPayload]: the handler tests both fields against
    [undefined]. *)
Record RemootioDecryptedPayload : Set := mkPayload {
  event : option Event.t;
  response : option Response.t
}.

(** [RemootioFrame]: the frame is only ever logged. *)
Record RemootioFrame : Set := mkFrame {
  frameType : option string;
  challenge : option (string * Z)
}.

(** [decryptedPayload.event.data?.keyType] *)
Definition dataKeyType (e : Event.t) : option string :=
  match Event.data e with
  | Some d => keyType d
  | None => None
  end.

(** [x === 'literal'] where [x] may be [undefined]. *)
Definition optStringIs (x : option string) (lit : string) : bool :=
  match x with
  | Some s => (s =? lit)%string
  | None => false
  end.

(** ** The device and the accessory *)

(** The methods of the remootio-api-client device that the accessory calls. *)
Inductive Command : Set :=
| Connect (autoReconnect : bool)
| Authenticate
| SendQuery
| SendOpen
| SendClose.

Record RemootioDevice : Set := mkDevice {
  isConnected : bool;
  isAuthenticated : bool;
  sent : list Command
}.

Record Accessory : Set := mkAccessory {
  currentState : Z;
  targetState : Z;
  device : RemootioDevice;
  updates : list Z
}.

(** What a handler passes to its HAP callback: [callback(new Error(msg))] or
    [callback(null, v)]. *)
Inductive Callback (A : Type) : Type :=
| Failure (msg : string)
| Success (v : A).
Arguments Failure {A} msg.
Arguments Success {A} v.

Definition NoValueAvailable {A} : Callback A := Failure "No value available".
Definition NotConnected {A} : Callback A := Failure "Not Connected".
Definition InvalidValue {A} : Callback A := Failure "no value".

(** A method call on [this.device]. *)
Definition call (c : Command) (a : Accessory) : Accessory :=
  let d := device a in
  mkAccessory (currentState a) (targetState a)
    (mkDevice (isConnected d) (isAuthenticated d) (sent d ++ [c]))
    (updates a).

Definition setTarget (v : Z) (a : Accessory) : Accessory :=
  mkAccessory (currentState a) v (device a) (updates a).

(** One arm of the switch of [setCurrentDoorState]: the assignment to
    [this.currentState] and the [updateValue] on the characteristic. *)
Definition setCurrent (v : Z) (a : Accessory) : Accessory :=
  mkAccessory v (targetState a) (device a) (updates a ++ [v]).

(** Statements in sequence, and a statement under an [if] without [else]. *)
Definition andThen (f g : Accessory -> Accessory) : Accessory -> Accessory :=
  fun a => g (f a).
Definition when (b : bool) (f : Accessory -> Accessory)
  : Accessory -> Accessory :=
  fun a => if b then f a else a.
Infix ";;" := andThen (at level 61, left associativity).

(** ** Handlers shared by the two implementations *)

Definition setCurrentDoorState (state : string) (a : Accessory) : Accessory :=
  if (state =? "open")%string then setCurrent CurrentDoorState.OPEN a
  else if (state =? "closed")%string then setCurrent CurrentDoorState.CLOSED a
  else if (state =? "opening")%string then setCurrent CurrentDoorState.OPENING a
  else if (state =? "closing")%string then setCurrent CurrentDoorState.CLOSING a
  else a.

Definition getCurrentStateHandler (a : Accessory) : Callback Z * Accessory :=
  let result :=
    if currentState a <? 0 then NoValueAvailable
    else Success (currentState a) in
  (result, call SendQuery a).

Definition getTargetStateHandler (a : Accessory) : Callback Z * Accessory :=
  if targetState a <? 0 then
    if currentState a <? 0 then (NoValueAvailable, a)
    else
      let a' := setTarget (currentState a) a in
      (Success (targetState a'), a')
  else (Success (targetState a), a).

Definition setTargetStateHandler (newValue : option Z) (a : Accessory)
  : Callback unit * Accessory :=
  match newValue with
  | None => (InvalidValue, a)
  | Some newState =>
      let oldState := targetState a in
      if negb (newState =? oldState) then
        if negb (isConnected (device a)) || negb (isAuthenticated (device a))
        then (NotConnected, a)
        else
          let a1 := setTarget newState a in
          let a2 :=
            if newState =? TargetDoorState.OPEN then call SendOpen a1
            else if newState =? TargetDoorState.CLOSED then call SendClose a1
            else a1 in
          (Success tt, a2)
      else (Success tt, a)
  end.

(** ** [handleIncomingMessage], first implementation (AccessoryPlugin) *)
Module Plugin.

Definition handleIncomingMessage (frame : option RemootioFrame)
    (decryptedPayload : option RemootioDecryptedPayload)
  : Accessory -> Accessory :=
  match decryptedPayload with
  | Some p =>
      match event p with
      | Some e =>
          match Event.state e with
          | Some st =>
              when (Event.type e =? "StateChange")%string
                (setCurrentDoorState st) ;;
              when ((Event.type e =? "RelayTrigger")%string
                    && (st =? "open")%string)
                (setCurrentDoorState "closing") ;;
              when ((Event.type e =? "RelayTrigger")%string
                    && (st =? "closed")%string)
                (setCurrentDoorState "opening")
          | None => fun a => a
          end
      | None => fun a => a
      end ;;
      match response p with
      | Some r =>
          match Response.state r with
          | Some st =>
              when (Response.type r =? "QUERY")%string
                (setCurrentDoorState st)
          | None => fun a => a
          end
      | None => fun a => a
      end
  | None => fun a => a
  end.

End Plugin.

(** ** [handleIncomingMessage], second implementation (PlatformAccessory) *)
Module Platform.

Definition handleIncomingMessage (frame : option RemootioFrame)
    (decryptedPayload : option RemootioDecryptedPayload)
  : Accessory -> Accessory :=
  match decryptedPayload with
  | Some p =>
      match event p with
      | Some e =>
          match Event.state e with
          | Some st =>
              when (Event.type e =? "StateChange")%string
                (setCurrentDoorState st ;;
                 when (st =? "closed")%string
                   (setTarget TargetDoorState.CLOSED)) ;;
              when ((Event.type e =? "RelayTrigger")%string
                    && (st =? "open")%string
                    && optStringIs (dataKeyType e) "api key")
                (setCurrentDoorState "closing") ;;
              when ((Event.type e =? "RelayTrigger")%string
                    && (st =? "closed")%string
                    && optStringIs (dataKeyType e) "api key")
                (setCurrentDoorState "opening")
          | None => fun a => a
          end
      | None => fun a => a
      end ;;
      match response p with
      | Some r =>
          match Response.state r with
          | Some st =>
              when (Response.type r =? "QUERY")%string
                (setCurrentDoorState st)
          | None => fun a => a
          end
      | None => fun a => a
      end
  | None => fun a => a
  end.

End Platform.

(** ** The two implementations side by side *)

Inductive Implementation : Set :=
| AccessoryPlugin
| PlatformAccessory.

Definition handleIncomingMessage (impl : Implementation)
  : option RemootioFrame -> option RemootioDecryptedPayload ->
    Accessory -> Accessory :=
  match impl with
  | AccessoryPlugin => Plugin.handleIncomingMessage
  | PlatformAccessory => Platform.handleIncomingMessage
  end.

(** ** Executions *)

(** What can happen to an accessory once it is constructed: the listeners
    registered on the device fire, the hub reads or writes a characteristic,
    or the device's flags change on their own. *)
Inductive Input : Set :=
| IncomingMessage (frame : option RemootioFrame)
                  (decryptedPayload : option RemootioDecryptedPayload)
| DeviceConnected
| DeviceAuthenticated
| DeviceDisconnect (msg : string)
| DeviceError (err : string)
| DeviceFlags (connected authenticated : bool)
| GetCurrentState
| GetTargetState
| SetTargetState (newValue : option Z)
| GetObstructionDetected.

Definition setFlags (c au : bool) (a : Accessory) : Accessory :=
  mkAccessory (currentState a) (targetState a)
    (mkDevice c au (sent (device a))) (updates a).

Definition step (impl : Implementation) (i : Input) (a : Accessory)
  : Accessory :=
  match i with
  | IncomingMessage frame p => handleIncomingMessage impl frame p a
  | DeviceConnected => call Authenticate a
  | DeviceAuthenticated => a
  | DeviceDisconnect _ => a
  | DeviceError _ => a
  | DeviceFlags c au => setFlags c au a
  | GetCurrentState => snd (getCurrentStateHandler a)
  | GetTargetState => snd (getTargetStateHandler a)
  | SetTargetState v => snd (setTargetStateHandler v a)
  | GetObstructionDetected => a
  end.

(** The accessory as its constructor leaves it: both states at -1 and
    [this.device.connect(true)] called. *)
Definition init : Accessory :=
  mkAccessory (-1) (-1) (mkDevice false false [Connect true]) [].

Fixpoint run (impl : Implementation) (inputs : list Input) (a : Accessory)
  : Accessory :=
  match inputs with
  | [] => a
  | i :: rest => run impl rest (step impl i a)
  end.

Inductive reachable (impl : Implementation) : Accessory -> Prop :=
| reachable_init : reachable impl init
| reachable_step a i : reachable impl a -> reachable impl (step impl i a).

(** The commands that the device receives while input [i] is handled in
    state [a]. *)
Definition issued (impl : Implementation) (i : Input) (a : Accessory)
  : list Command :=
  skipn (length (sent (device a))) (sent (device (step impl i a))).

(** ** Payloads used in the statements *)

Definition eventPayload (e : Event.t) : RemootioDecryptedPayload :=
  mkPayload (Some e) None.

Definition responsePayload (r : Response.t) : RemootioDecryptedPayload :=
  mkPayload None (Some r).

Definition StateChange (state : string) : RemootioDecryptedPayload :=
  eventPayload (Event.mk 1 "StateChange" (Some state) 0 None).

Definition RelayTrigger (state kt : string) : RemootioDecryptedPayload :=
  eventPayload
    (Event.mk 1 "RelayTrigger" (Some state) 0
       (Some (mkData (Some 1) (Some kt) (Some "bluetooth") None))).

Definition QueryResponse (state : string) : RemootioDecryptedPayload :=
  responsePayload (Response.mk "QUERY" 1 true (Some state) 0 false "").

(** The states that [setCurrentDoorState] has a case for. *)
Definition recognised (state : string) : bool :=
  (state =? "open")%string || (state =? "closed")%string
  || (state =? "opening")%string || (state =? "closing")%string.

(** The accessory listens to the hub and the device is ready for a command:
    the condition under which [setTargetStateHandler] goes on. *)
Definition ready (a : Accessory) : bool :=
  isConnected (device a) && isAuthenticated (device a).

(** The current states that [setCurrentDoorState] can assign, and -1. *)
Definition currentValues : list Z :=
  [UNKNOWN; CurrentDoorState.OPEN; CurrentDoorState.CLOSED;
   CurrentDoorState.OPENING; CurrentDoorState.CLOSING].

(** ** Construction *)

(** The accessory's configuration: [config.name], [config.ipAddress],
    [config.apiSecretKey] and [config.apiAuthKey], each of which may be
    [undefined]. *)
Record AccessoryConfig : Set := mkConfig {
  configName : option string;
  configIpAddress : option string;
  configApiSecretKey : option string;
  configApiAuthKey : option string
}.

(** [private readonly pingInterval = 60000] *)
Definition pingInterval : Z := 60000.

(** What a successful construction leaves: the name given to the garage door
    service, the arguments of [new RemootioDevice(...)] and the accessory
    with its listeners registered. *)
Record Configured : Set := mkConfigured {
  serviceName : option string;
  deviceIpAddress : string;
  deviceApiSecretKey : string;
  deviceApiAuthKey : string;
  devicePingInterval : Z;
  accessory : Accessory
}.

(** The constructor of the first implementation: it returns before creating
    the device when one of the three parameters is [undefined]; [None]
    stands for an object without device and without handlers. *)
Definition pluginConstructor (config : AccessoryConfig) : option Configured :=
  match configIpAddress config, configApiSecretKey config,
        configApiAuthKey config with
  | Some ip, Some sk, Some ak =>
      Some (mkConfigured (configName config) ip sk ak pingInterval init)
  | _, _, _ => None
  end.

(** [config.name || 'Remootio Device']: an [undefined] or empty name is
    falsy. *)
Definition nameOrDefault (name : option string) : string :=
  match name with
  | Some n => if (n =? "")%string then "Remootio Device" else n
  | None => "Remootio Device"
  end.

(** [configureDevice] of the second implementation, on
    [this.accessory.context.device]. *)
Definition configureDevice (config : option AccessoryConfig)
  : option Configured :=
  match config with
  | None => None
  | Some c =>
      match configIpAddress c, configApiSecretKey c, configApiAuthKey c with
      | Some ip, Some sk, Some ak =>
          Some (mkConfigured (Some (nameOrDefault (configName c)))
                  ip sk ak pingInterval init)
      | _, _, _ => None
      end
  end.

(** The handler of the ObstructionDetected characteristic:
    [callback(null, false)]. *)
Definition obstructionDetectedHandler (a : Accessory)
  : Callback bool * Accessory :=
  (Success false, a).

(** ** Vocabulary of the statements on executions *)

Definition isMessage (i : Input) : bool :=
  match i with
  | IncomingMessage _ _ => true
  | _ => false
  end.

Definition isGetCurrentState (i : Input) : bool :=
  match i with
  | GetCurrentState => true
  | _ => false
  end.

Definition isDeviceConnected (i : Input) : bool :=
  match i with
  | DeviceConnected => true
  | _ => false
  end.

Definition isSetTargetState (i : Input) : bool :=
  match i with
  | SetTargetState _ => true
  | _ => false
  end.

(** The hub asks for OPEN or CLOSED only (the two values of the target door
    state); every other input passes. *)
Definition requestsDoorState (i : Input) : bool :=
  match i with
  | SetTargetState (Some x) =>
      (x =? TargetDoorState.OPEN) || (x =? TargetDoorState.CLOSED)
  | _ => true
  end.

Definition isSendQuery (c : Command) : bool :=
  match c with
  | SendQuery => true
  | _ => false
  end.

Definition isAuthenticate (c : Command) : bool :=
  match c with
  | Authenticate => true
  | _ => false
  end.

Definition isConnect (c : Command) : bool :=
  match c with
  | Connect _ => true
  | _ => false
  end.

Definition isDoorCommand (c : Command) : bool :=
  match c with
  | SendOpen | SendClose => true
  | _ => false
  end.

Definition count {A : Type} (p : A -> bool) (l : list A) : nat :=
  length (filter p l).

(** The [sendOpen] and [sendClose] commands received by the device, in
    order. *)
Definition doorCommands (a : Accessory) : list Command :=
  filter isDoorCommand (sent (device a)).

Definition Command_eqb (c d : Command) : bool :=
  match c, d with
  | Connect x, Connect y => Bool.eqb x y
  | Authenticate, Authenticate => true
  | SendQuery, SendQuery => true
  | SendOpen, SendOpen => true
  | SendClose, SendClose => true
  | _, _ => false
  end.

(** Somewhere in [l] command [c] is followed at once by [c] again. *)
Fixpoint repeats (c : Command) (l : list Command) : bool :=
  match l with
  | x :: rest =>
      match rest with
      | y :: _ => (Command_eqb x c && Command_eqb y c) || repeats c rest
      | [] => false
      end
  | [] => false
  end.

(** The last of the door commands received, [Authenticate] when there is
    none. *)
Definition lastDoorCommand (a : Accessory) : Command :=
  last (doorCommands a) Authenticate.

(** What the door commands received so far and [targetState] have to do
    with each other. *)
Definition doorInvariant (impl : Implementation) (a : Accessory) : Prop :=
  repeats SendClose (doorCommands a) = false
  /\ (lastDoorCommand a = SendClose ->
        targetState a = TargetDoorState.CLOSED)
  /\ (impl = AccessoryPlugin ->
        repeats SendOpen (doorCommands a) = false
        /\ (lastDoorCommand a = SendOpen ->
              targetState a = TargetDoorState.OPEN)).

(** The payloads on which the two versions of [handleIncomingMessage] run
    different statements: a StateChange to "closed", and a RelayTrigger with
    state "open" or "closed" whose key type is not "api key". *)
Definition partsWays (p : option RemootioDecryptedPayload) : bool :=
  match p with
  | Some (mkPayload (Some e) _) =>
      match Event.state e with
      | Some st =>
          ((Event.type e =? "StateChange")%string && (st =? "closed")%string)
          || ((Event.type e =? "RelayTrigger")%string
              && ((st =? "open")%string || (st =? "closed")%string)
              && negb (optStringIs (dataKeyType e) "api key"))
      | None => false
      end
  | _ => false
  end.

(** The payloads that carry a state the handler looks at: an event of type
    StateChange or RelayTrigger with a state, or a response of type QUERY
    with a state. *)
Definition carriesState (p : RemootioDecryptedPayload) : bool :=
  match event p with
  | Some e =>
      match Event.state e with
      | Some _ =>
          (Event.type e =? "StateChange")%string
          || (Event.type e =? "RelayTrigger")%string
      | None => false
      end
  | None => false
  end
  || match response p with
     | Some r =>
         match Response.state r with
         | Some _ => (Response.type r =? "QUERY")%string
         | None => false
         end
     | None => false
     end.

(** * Properties *)

(** ** The numbering agrees with the source's table *)

Lemma doorStateValue_table (s : DoorState) :
  nth_error garageDoorOpenerStateToString (Z.to_nat (doorStateValue s))
  = Some match s with
         | Open => "OPEN"
         | Closed => "CLOSED"
         | Opening => "OPENING"
         | Closing => "CLOSING"
         | Stopped => "STOPPED"
         end.
Proof. destruct s; reflexivity. Qed.

Lemma isUnknown_UNKNOWN : isUnknown UNKNOWN = true.
Proof. reflexivity. Qed.

Lemma isUnknown_doorStateValue (s : DoorState) :
  isUnknown (doorStateValue s) = false.
Proof. destruct s; reflexivity. Qed.

(** ** [setCurrentDoorState] *)

Ltac string_cases s :=
  repeat match goal with
  | |- context [String.eqb s ?lit] =>
      destruct (String.eqb_spec s lit); try subst s
  end.

Lemma setCurrentDoorState_recognised (s : string) (a : Accessory) :
  recognised s = true ->
  exists v, In v (tl currentValues) /\ setCurrentDoorState s a = setCurrent v a.
Proof.
  unfold recognised, setCurrentDoorState, currentValues.
  string_cases s; cbn; intros H; try discriminate;
    eexists; (split; [ | reflexivity ]); cbn; auto.
Qed.

Lemma setCurrentDoorState_unrecognised (s : string) (a : Accessory) :
  recognised s = false -> setCurrentDoorState s a = a.
Proof.
  unfold recognised, setCurrentDoorState.
  string_cases s; cbn; intros H; try discriminate; reflexivity.
Qed.

Lemma setCurrentDoorState_doorState (s : DoorState) (a : Accessory) :
  s <> Stopped ->
  setCurrentDoorState (doorStateString s) a = setCurrent (doorStateValue s) a.
Proof. destruct s; intros H; try reflexivity. now elim H. Qed.

Lemma recognised_doorState (s : DoorState) :
  recognised (doorStateString s) = negb match s with Stopped => true | _ => false end.
Proof. destruct s; reflexivity. Qed.

(** ** What [handleIncomingMessage] can do *)

(** Both implementations act on the accessory through [setCurrentDoorState]
    and through an assignment to [targetState] only, so whatever these two
    preserve is preserved by the handler. *)
Section Preservation.

Variable P : Accessory -> Prop.
Hypothesis P_setCurrentDoorState :
  forall s a, P a -> P (setCurrentDoorState s a).
Hypothesis P_setTarget : forall v a, P a -> P (setTarget v a).

Lemma when_preserves b f :
  (forall a, P a -> P (f a)) -> forall a, P a -> P (when b f a).
Proof. unfold when; destruct b; auto. Qed.

Lemma andThen_preserves f g :
  (forall a, P a -> P (f a)) -> (forall a, P a -> P (g a)) ->
  forall a, P a -> P ((f ;; g) a).
Proof. unfold andThen; auto. Qed.

Lemma handleIncomingMessage_preserves impl frame p a :
  P a -> P (handleIncomingMessage impl frame p a).
Proof.
  revert a.
  destruct impl, p as [[[e|] [r|]]|];
    cbn [handleIncomingMessage Plugin.handleIncomingMessage
           Platform.handleIncomingMessage event response];
    try destruct (Event.state e); try destruct (Response.state r);
    repeat first [ exact (P_setCurrentDoorState _)
                 | exact (P_setTarget _)
                 | apply andThen_preserves
                 | apply when_preserves ];
    auto.
Qed.

End Preservation.

Lemma handleIncomingMessage_device impl frame p a :
  device (handleIncomingMessage impl frame p a) = device a.
Proof.
  apply (handleIncomingMessage_preserves (fun x => device x = device a));
    trivial.
  intros s x Hx. unfold setCurrentDoorState.
  string_cases s; cbn; assumption.
Qed.

Lemma handleIncomingMessage_currentValues impl frame p a :
  In (currentState a) currentValues ->
  In (currentState (handleIncomingMessage impl frame p a)) currentValues.
Proof.
  apply (handleIncomingMessage_preserves
           (fun x => In (currentState x) currentValues)); trivial.
  intros s x Hx. unfold setCurrentDoorState.
  string_cases s; cbn; auto 7.
Qed.

(** ** Reachable states *)

Lemma reachable_run impl inputs a :
  reachable impl a -> reachable impl (run impl inputs a).
Proof.
  revert a. induction inputs as [|i rest IH]; cbn; intros a Ha; trivial.
  apply IH. now constructor.
Qed.

Lemma reachable_currentValues impl a :
  reachable impl a -> In (currentState a) currentValues.
Proof.
  induction 1 as [|a i Ha IH].
  - cbn. auto.
  - destruct i; cbn [step]; trivial.
    + now apply handleIncomingMessage_currentValues.
    + unfold getTargetStateHandler.
      destruct (targetState a <? 0), (currentState a <? 0); cbn; trivial.
    + unfold setTargetStateHandler. destruct newValue as [x|]; trivial.
      destruct (negb (x =? targetState a)); trivial.
      destruct (negb (isConnected (device a))
                || negb (isAuthenticated (device a))); trivial.
      cbn. destruct (x =? TargetDoorState.OPEN); trivial.
      destruct (x =? TargetDoorState.CLOSED); trivial.
Qed.

Lemma reachable_isUnknown impl a :
  reachable impl a ->
  (isUnknown (currentState a) = true <-> currentState a = UNKNOWN).
Proof.
  intros Ha. apply reachable_currentValues in Ha.
  unfold currentValues, isUnknown in *. cbn in Ha.
  unfold UNKNOWN, CurrentDoorState.OPEN, CurrentDoorState.CLOSED,
    CurrentDoorState.OPENING, CurrentDoorState.CLOSING in *.
  rewrite Z.ltb_lt. lia.
Qed.

(** ** Claims on [setCurrentDoorState] and the reachable current states *)

(** C10: in every reachable state of either implementation [currentState] is
    -1 (UNKNOWN), OPEN, CLOSED, OPENING or CLOSING, hence never STOPPED; and
    in any state a device-reported state string other than "open", "closed",
    "opening" and "closing" ("stopped" among them) is ignored by
    [setCurrentDoorState], so that a StateChange event or a QUERY response
    carrying it leaves the accessory as it was. *)
Theorem current_state_never_stopped (impl : Implementation) (a : Accessory) :
  reachable impl a ->
  In (currentState a) currentValues
  /\ currentState a <> CurrentDoorState.STOPPED
  /\ recognised "stopped" = false
  /\ forall s frame e r,
       recognised s = false ->
       Event.type e = "StateChange" -> Event.state e = Some s ->
       Response.type r = "QUERY" -> Response.state r = Some s ->
       setCurrentDoorState s a = a
       /\ handleIncomingMessage impl frame (Some (eventPayload e)) a = a
       /\ handleIncomingMessage impl frame (Some (responsePayload r)) a = a.
Proof.
  intros Ha. pose proof (reachable_currentValues impl a Ha) as Hin.
  split; [exact Hin|]. split.
  - intros Heq. rewrite Heq in Hin. cbn in Hin.
    repeat destruct Hin as [Hin|Hin]; try discriminate Hin. exact Hin.
  - split; [reflexivity|].
    intros s frame e r Hs Hty Hst Hrty Hrst.
    pose proof (setCurrentDoorState_unrecognised s a Hs) as Hset.
    assert (Hclosed : (s =? "closed")%string = false).
    { unfold recognised in Hs.
      destruct (s =? "closed")%string; trivial.
      rewrite orb_true_r in Hs. discriminate Hs. }
    split; [exact Hset|].
    destruct impl; cbn; rewrite ?Hty, ?Hst, ?Hrty, ?Hrst; cbn;
      unfold andThen, when; cbn; rewrite ?Hset, ?Hclosed;
      destruct (s =? "open")%string; auto.
Qed.

Lemma current_state_never_stopped_witness :
  let a := run PlatformAccessory
             [IncomingMessage None (Some (QueryResponse "opening"))] init in
  currentState a = CurrentDoorState.OPENING
  /\ handleIncomingMessage PlatformAccessory None
       (Some (StateChange "stopped")) a = a
  /\ handleIncomingMessage PlatformAccessory None
       (Some (QueryResponse "stopped")) a = a.
Proof.
  pose (a := run PlatformAccessory
               [IncomingMessage None (Some (QueryResponse "opening"))] init).
  assert (Ha : reachable PlatformAccessory a)
    by (apply reachable_run; constructor).
  destruct (current_state_never_stopped PlatformAccessory a Ha)
    as (_ & _ & Hst & Hign).
  destruct (Hign "stopped" None
              (Event.mk 1 "StateChange" (Some "stopped") 0 None)
              (Response.mk "QUERY" 1 true (Some "stopped") 0 false "")
              Hst eq_refl eq_refl eq_refl eq_refl) as (_ & He & Hr).
  split; [reflexivity|]. split; [exact He | exact Hr].
Defined.

(** ** Claims on the hub's requests *)

(** C6: [getCurrentStateHandler] answers "No value available" when
    [currentState] is still unknown (negative, as -1 is) and answers
    [currentState] otherwise; either way it leaves both states, the flags
    and the pushed values as they were and the device receives exactly one
    more command, [sendQuery]. *)
Theorem get_current_state_queries_once (a : Accessory) :
  let result := fst (getCurrentStateHandler a) in
  let a' := snd (getCurrentStateHandler a) in
  (currentState a = UNKNOWN -> result = NoValueAvailable)
  /\ (isUnknown (currentState a) = true -> result = NoValueAvailable)
  /\ (isUnknown (currentState a) = false -> result = Success (currentState a))
  /\ currentState a' = currentState a
  /\ targetState a' = targetState a
  /\ updates a' = updates a
  /\ isConnected (device a') = isConnected (device a)
  /\ isAuthenticated (device a') = isAuthenticated (device a)
  /\ sent (device a') = sent (device a) ++ [SendQuery].
Proof.
  unfold getCurrentStateHandler, isUnknown. cbn.
  repeat split.
  - intros ->. reflexivity.
  - intros ->. reflexivity.
  - intros ->. reflexivity.
Qed.

Lemma get_current_state_queries_once_witness :
  fst (getCurrentStateHandler init) = NoValueAvailable
  /\ sent (device (snd (getCurrentStateHandler init)))
     = [Connect true; SendQuery].
Proof.
  destruct (get_current_state_queries_once init)
    as (Hu & _ & _ & _ & _ & _ & _ & _ & Hs).
  split; [exact (Hu eq_refl) | exact Hs].
Defined.

(** C7: [getTargetStateHandler] answers with an error exactly when
    [targetState] and [currentState] are both unknown, and then changes
    nothing; when only [targetState] is unknown it assigns [currentState] to
    [targetState] and answers that value; otherwise it answers [targetState]
    and changes nothing. *)
Theorem get_target_state_adopts_current (a : Accessory) :
  let result := fst (getTargetStateHandler a) in
  let a' := snd (getTargetStateHandler a) in
  ((exists msg, result = Failure msg) <->
     isUnknown (targetState a) = true /\ isUnknown (currentState a) = true)
  /\ (isUnknown (targetState a) = true -> isUnknown (currentState a) = true ->
        result = NoValueAvailable /\ a' = a)
  /\ (isUnknown (targetState a) = true -> isUnknown (currentState a) = false ->
        result = Success (currentState a)
        /\ targetState a' = currentState a
        /\ currentState a' = currentState a
        /\ device a' = device a /\ updates a' = updates a)
  /\ (isUnknown (targetState a) = false ->
        result = Success (targetState a) /\ a' = a).
Proof.
  unfold getTargetStateHandler, isUnknown.
  destruct (targetState a <? 0) eqn:Ht, (currentState a <? 0) eqn:Hc; cbn;
    (split; [split|]).
  all: try (intros [msg Hmsg]; discriminate Hmsg).
  all: try (intros [H1 H2]; discriminate).
  all: try (intros _; split; [reflexivity | now exists "No value available"]).
  all: try (now exists "No value available").
  all: repeat split; intros; try discriminate; reflexivity.
Qed.

Lemma get_target_state_adopts_current_witness :
  let a := run PlatformAccessory
             [IncomingMessage None (Some (StateChange "open"))] init in
  fst (getTargetStateHandler a) = Success CurrentDoorState.OPEN
  /\ targetState (snd (getTargetStateHandler a)) = CurrentDoorState.OPEN
  /\ fst (getTargetStateHandler init) = NoValueAvailable.
Proof.
  pose (a := run PlatformAccessory
               [IncomingMessage None (Some (StateChange "open"))] init).
  destruct (get_target_state_adopts_current a) as (_ & _ & Hadopt & _).
  destruct (Hadopt eq_refl eq_refl) as (Hr & Ht & _).
  destruct (get_target_state_adopts_current init) as (_ & Hboth & _).
  destruct (Hboth eq_refl eq_refl) as (Herr & _).
  split; [exact Hr|]. split; [exact Ht | exact Herr].
Defined.

(** C8: for every value [x], [setTargetStateHandler] called with [x] when
    [targetState] is [x] already answers success and leaves the accessory as
    it is: no command reaches the device and no state changes.  Hence the
    same request made twice in a row gives the answer and the accessory that
    making it once gives. *)
Theorem set_target_state_same_value_is_noop (x : Z) (a : Accessory) :
  (targetState a = x -> setTargetStateHandler (Some x) a = (Success tt, a))
  /\ setTargetStateHandler (Some x) (snd (setTargetStateHandler (Some x) a))
     = setTargetStateHandler (Some x) a.
Proof.
  split.
  - intros <-. unfold setTargetStateHandler. now rewrite Z.eqb_refl.
  - destruct (setTargetStateHandler (Some x) a) as [r a'] eqn:Hcall.
    cbn [snd]. revert Hcall. unfold setTargetStateHandler.
    destruct (Z.eqb_spec x (targetState a)) as [Heq|Hne]; cbn [negb].
    + intros [= <- <-]. rewrite <- Heq, Z.eqb_refl. reflexivity.
    + destruct (negb (isConnected (device a))
                || negb (isAuthenticated (device a))) eqn:Hflags.
      * intros [= <- <-].
        destruct (Z.eqb_spec x (targetState a)); [contradiction|].
        cbn [negb]. rewrite Hflags. reflexivity.
      * intros [= <- <-].
        assert (Ht : targetState
                       (if x =? TargetDoorState.OPEN
                        then call SendOpen (setTarget x a)
                        else if x =? TargetDoorState.CLOSED
                             then call SendClose (setTarget x a)
                             else setTarget x a) = x)
          by (destruct (x =? TargetDoorState.OPEN),
                (x =? TargetDoorState.CLOSED); reflexivity).
        rewrite Ht, Z.eqb_refl. reflexivity.
Qed.

Lemma set_target_state_same_value_is_noop_witness :
  let a := run PlatformAccessory
             [DeviceFlags true true; SetTargetState (Some 0)] init in
  sent (device a) = [Connect true; SendOpen]
  /\ setTargetStateHandler (Some 0) a = (Success tt, a).
Proof.
  pose (a := run PlatformAccessory
               [DeviceFlags true true; SetTargetState (Some 0)] init).
  destruct (set_target_state_same_value_is_noop 0 a) as (Hsame & _).
  split; [reflexivity | exact (Hsame eq_refl)].
Defined.

Lemma set_target_state_unconnected (x : Z) (a : Accessory) :
  x <> targetState a ->
  isConnected (device a) = false \/ isAuthenticated (device a) = false ->
  setTargetStateHandler (Some x) a = (NotConnected, a).
Proof.
  intros Hne Hflags. unfold setTargetStateHandler.
  destruct (Z.eqb_spec x (targetState a)) as [Heq|_]; [contradiction|].
  destruct Hflags as [-> | ->]; cbn; trivial.
  now rewrite orb_true_r.
Qed.

(** C9: for every value [x] other than the present [targetState], a call of
    [setTargetStateHandler] with [x] while the device is not connected or not
    authenticated answers "Not Connected" and leaves the accessory as it is:
    no command is sent, [targetState] and [currentState] keep their values. *)
Theorem set_target_state_not_connected (x : Z) (a : Accessory) :
  x <> targetState a ->
  isConnected (device a) = false \/ isAuthenticated (device a) = false ->
  let result := fst (setTargetStateHandler (Some x) a) in
  let a' := snd (setTargetStateHandler (Some x) a) in
  result = NotConnected
  /\ sent (device a') = sent (device a)
  /\ targetState a' = targetState a
  /\ currentState a' = currentState a
  /\ a' = a.
Proof.
  intros Hne Hflags. cbn zeta.
  rewrite (set_target_state_unconnected x a Hne Hflags). cbn.
  repeat split.
Qed.

Lemma set_target_state_not_connected_witness :
  fst (setTargetStateHandler (Some TargetDoorState.OPEN) init) = NotConnected
  /\ targetState (snd (setTargetStateHandler (Some TargetDoorState.OPEN) init))
     = UNKNOWN.
Proof.
  assert (Hne : TargetDoorState.OPEN <> targetState init) by discriminate.
  destruct (set_target_state_not_connected TargetDoorState.OPEN init Hne
              (or_introl eq_refl)) as (Hr & _ & Ht & _).
  split; [exact Hr | exact Ht].
Defined.

(** ** Claims on the commands sent to the device *)

Lemma skipn_length_app {A : Type} (l k : list A) :
  skipn (length l) (l ++ k) = k.
Proof. induction l as [|x l IH]; cbn; trivial. Qed.

Lemma skipn_length_self {A : Type} (l : list A) : skipn (length l) l = [].
Proof. induction l as [|x l IH]; cbn; trivial. Qed.

(** The commands of each input, read off the handlers. *)
Lemma issued_spec impl i a :
  issued impl i a =
  match i with
  | DeviceConnected => [Authenticate]
  | GetCurrentState => [SendQuery]
  | SetTargetState (Some x) =>
      if negb (x =? targetState a) && ready a then
        if x =? TargetDoorState.OPEN then [SendOpen]
        else if x =? TargetDoorState.CLOSED then [SendClose]
        else []
      else []
  | _ => []
  end.
Proof.
  unfold issued, ready.
  destruct i as [frame p| | | | | c au | | |[x|] | ]; cbn [step];
    try apply skipn_length_self; try apply skipn_length_app.
  - rewrite handleIncomingMessage_device. apply skipn_length_self.
  - unfold getTargetStateHandler.
    destruct (targetState a <? 0), (currentState a <? 0); cbn;
      apply skipn_length_self.
  - unfold setTargetStateHandler.
    destruct (negb (x =? targetState a)); cbn;
      [|apply skipn_length_self].
    destruct (isConnected (device a)), (isAuthenticated (device a)); cbn;
      try apply skipn_length_self.
    destruct (x =? TargetDoorState.OPEN); cbn;
      [apply skipn_length_app|].
    destruct (x =? TargetDoorState.CLOSED); cbn;
      [apply skipn_length_app | apply skipn_length_self].
Qed.

Lemma sent_step impl i a :
  sent (device (step impl i a)) = sent (device a) ++ issued impl i a.
Proof.
  rewrite issued_spec. unfold ready.
  destruct i as [frame p| | | | | c au | | |[x|] | ]; cbn [step];
    try (symmetry; apply app_nil_r); try reflexivity.
  - rewrite handleIncomingMessage_device. symmetry; apply app_nil_r.
  - unfold getTargetStateHandler.
    destruct (targetState a <? 0), (currentState a <? 0); cbn;
      symmetry; apply app_nil_r.
  - unfold setTargetStateHandler.
    destruct (negb (x =? targetState a)); cbn;
      [|symmetry; apply app_nil_r].
    destruct (isConnected (device a)), (isAuthenticated (device a)); cbn;
      try (symmetry; apply app_nil_r).
    destruct (x =? TargetDoorState.OPEN); cbn; trivial.
    destruct (x =? TargetDoorState.CLOSED); cbn; trivial.
    symmetry; apply app_nil_r.
Qed.

(** C3, as the code has it: whatever input a reachable accessory handles,
    the commands of that input are appended to those the device has received,
    and [sendOpen] or [sendClose] is among them only if the device is
    connected and authenticated at that moment; a request to set a target
    other than the present one that arrives while one of the two flags is
    false is answered "Not Connected", sends nothing and changes nothing.
    ([sendQuery] is not covered: [getCurrentStateHandler] always sends it.) *)
Theorem open_and_close_are_gated (impl : Implementation) (a : Accessory)
    (i : Input) :
  reachable impl a ->
  sent (device (step impl i a)) = sent (device a) ++ issued impl i a
  /\ (forall c, In c (issued impl i a) -> c = SendOpen \/ c = SendClose ->
        isConnected (device a) = true /\ isAuthenticated (device a) = true)
  /\ (forall x, i = SetTargetState (Some x) -> x <> targetState a ->
        ready a = false ->
        setTargetStateHandler (Some x) a = (NotConnected, a)
        /\ issued impl i a = [] /\ step impl i a = a).
Proof.
  intros _. split; [apply sent_step|]. split.
  - intros c Hin Hc. rewrite issued_spec in Hin.
    destruct i as [frame p| | | | | co au | | |[x|] | ]; cbn in Hin;
      try contradiction;
      try (destruct Hin as [<-|[]]; destruct Hc; discriminate).
    destruct (negb (x =? targetState a)); cbn in Hin; [|contradiction].
    unfold ready in Hin.
    destruct (isConnected (device a)), (isAuthenticated (device a));
      cbn in Hin; try contradiction. auto.
  - intros x -> Hne Hready.
    assert (Hflags : isConnected (device a) = false
                     \/ isAuthenticated (device a) = false).
    { unfold ready in Hready. apply andb_false_iff in Hready. exact Hready. }
    pose proof (set_target_state_unconnected x a Hne Hflags) as Hcall.
    split; [exact Hcall|]. rewrite issued_spec. cbn [step].
    rewrite Hcall, Hready, andb_false_r. split; reflexivity.
Qed.

Lemma open_and_close_are_gated_witness :
  let a := run PlatformAccessory
             [IncomingMessage None (Some (QueryResponse "open"));
              DeviceFlags true true] init in
  issued PlatformAccessory (SetTargetState (Some 1)) a = [SendClose]
  /\ isConnected (device a) = true /\ isAuthenticated (device a) = true
  /\ setTargetStateHandler (Some 0) init = (NotConnected, init).
Proof.
  pose (a := run PlatformAccessory
               [IncomingMessage None (Some (QueryResponse "open"));
                DeviceFlags true true] init).
  assert (Ha : reachable PlatformAccessory a)
    by (apply reachable_run; constructor).
  destruct (open_and_close_are_gated PlatformAccessory a
              (SetTargetState (Some 1)) Ha) as (_ & Hgate & _).
  destruct (Hgate SendClose (or_introl eq_refl) (or_intror eq_refl))
    as (Hc & Hau).
  destruct (open_and_close_are_gated PlatformAccessory init
              (SetTargetState (Some 0)) (reachable_init _)) as (_ & _ & Hfail).
  assert (Hne : 0 <> targetState init) by discriminate.
  destruct (Hfail 0 eq_refl Hne eq_refl) as (Hcall & _).
  split; [reflexivity|]. split; [exact Hc|]. split; [exact Hau | exact Hcall].
Defined.

(** C3 as stated fails: the freshly constructed accessory is neither
    connected nor authenticated, yet a read of the current state sends
    [sendQuery]; and once a state has been received a read of the target
    state in that situation succeeds and assigns [targetState], as a request
    for the target that is already there succeeds too. *)
Lemma query_is_sent_while_disconnected :
  reachable PlatformAccessory init
  /\ isConnected (device init) = false
  /\ isAuthenticated (device init) = false
  /\ issued PlatformAccessory GetCurrentState init = [SendQuery]
  /\ let a := run PlatformAccessory
                [IncomingMessage None (Some (QueryResponse "open"))] init in
     ready a = false
     /\ targetState a = UNKNOWN
     /\ getTargetStateHandler a
        = (Success CurrentDoorState.OPEN, setTarget CurrentDoorState.OPEN a)
     /\ setTargetStateHandler (Some UNKNOWN) a = (Success tt, a).
Proof.
  split; [constructor|]. repeat split.
Qed.

(** ** Claims on state changes and query responses *)

(** C4, as the code has it: for every door state [s] among OPEN, CLOSED,
    OPENING and CLOSING, after a StateChange event that carries [s] a read of
    the current state answers [s], in either implementation; a StateChange
    event that carries STOPPED leaves the accessory as it was. *)
Theorem state_change_then_get_current_state (impl : Implementation)
    (frame : option RemootioFrame) (e : Event.t) (a : Accessory)
    (s : DoorState) :
  Event.type e = "StateChange" ->
  Event.state e = Some (doorStateString s) ->
  let a' := handleIncomingMessage impl frame (Some (eventPayload e)) a in
  (s <> Stopped -> fst (getCurrentStateHandler a') = Success (doorStateValue s))
  /\ (s = Stopped -> a' = a).
Proof.
  intros Hty Hst. cbn zeta. split.
  - intros Hs.
    destruct impl, s; try (now elim Hs);
      cbn; rewrite Hty, Hst; reflexivity.
  - intros ->. destruct impl; cbn; rewrite Hty, Hst; reflexivity.
Qed.

Lemma state_change_then_get_current_state_witness :
  fst (getCurrentStateHandler
         (handleIncomingMessage AccessoryPlugin None
            (Some (StateChange "closing")) init))
  = Success CurrentDoorState.CLOSING.
Proof.
  assert (Hs : Closing <> Stopped) by discriminate.
  exact (proj1 (state_change_then_get_current_state AccessoryPlugin None
                  (Event.mk 1 "StateChange" (Some "closing") 0 None) init
                  Closing eq_refl eq_refl) Hs).
Defined.

(** C4 as stated fails at STOPPED: after a StateChange event carrying
    "stopped" the fresh accessory still answers "No value available", and an
    accessory whose door is open still answers OPEN. *)
Lemma state_change_stopped_is_not_reported :
  fst (getCurrentStateHandler
         (handleIncomingMessage PlatformAccessory None
            (Some (StateChange (doorStateString Stopped))) init))
  = NoValueAvailable
  /\ fst (getCurrentStateHandler
            (run AccessoryPlugin
               [IncomingMessage None (Some (StateChange "open"));
                IncomingMessage None
                  (Some (StateChange (doorStateString Stopped)))] init))
     = Success CurrentDoorState.OPEN
  /\ Success CurrentDoorState.OPEN <> Success (doorStateValue Stopped)
  /\ @NoValueAvailable Z <> Success (doorStateValue Stopped).
Proof. repeat split; discriminate. Qed.

(** C5, as the code has it: for every door state [s] among OPEN, CLOSED,
    OPENING and CLOSING and every accessory, whatever its current state, a
    QUERY response that carries [s] sets [currentState] to [s], in either
    implementation and whatever event comes in the same payload; a QUERY
    response that carries STOPPED leaves [currentState] as it was. *)
Theorem query_response_sets_current_state (impl : Implementation)
    (frame : option RemootioFrame) (r : Response.t) (a : Accessory)
    (s : DoorState) :
  Response.type r = "QUERY" ->
  Response.state r = Some (doorStateString s) ->
  (s <> Stopped ->
     forall ev,
       currentState
         (handleIncomingMessage impl frame (Some (mkPayload ev (Some r))) a)
       = doorStateValue s)
  /\ (s = Stopped ->
        handleIncomingMessage impl frame (Some (responsePayload r)) a = a).
Proof.
  intros Hty Hst. split.
  - intros Hs ev.
    destruct impl;
      cbn [handleIncomingMessage Plugin.handleIncomingMessage
             Platform.handleIncomingMessage event response];
      rewrite Hty, Hst; unfold andThen at 1; cbn [String.eqb Ascii.eqb
        Bool.eqb when];
      rewrite (setCurrentDoorState_doorState s _ Hs); reflexivity.
  - intros ->. destruct impl; cbn; rewrite Hty, Hst; reflexivity.
Qed.

Lemma query_response_sets_current_state_witness :
  let a := run PlatformAccessory
             [IncomingMessage None (Some (RelayTrigger "closed" "api key"))]
             init in
  currentState a = CurrentDoorState.OPENING
  /\ currentState
       (handleIncomingMessage PlatformAccessory None
          (Some (QueryResponse "closed")) a)
     = CurrentDoorState.CLOSED.
Proof.
  pose (a := run PlatformAccessory
               [IncomingMessage None (Some (RelayTrigger "closed" "api key"))]
               init).
  assert (Hs : Closed <> Stopped) by discriminate.
  split; [reflexivity|].
  exact (proj1 (query_response_sets_current_state PlatformAccessory None
                  (Response.mk "QUERY" 1 true (Some "closed") 0 false "") a
                  Closed eq_refl eq_refl) Hs None).
Defined.

(** C5 as stated fails at STOPPED: a QUERY response carrying "stopped" leaves
    the inferred state OPENING in place. *)
Lemma query_response_stopped_is_ignored :
  let a := run PlatformAccessory
             [IncomingMessage None (Some (RelayTrigger "closed" "api key"))]
             init in
  currentState a = CurrentDoorState.OPENING
  /\ currentState
       (handleIncomingMessage PlatformAccessory None
          (Some (QueryResponse (doorStateString Stopped))) a)
     = CurrentDoorState.OPENING
  /\ CurrentDoorState.OPENING <> doorStateValue Stopped.
Proof. repeat split; discriminate. Qed.

(** ** Where the two implementations part: relay triggers and CLOSED *)

Lemma optStringIs_true (x : option string) (lit : string) :
  optStringIs x lit = true <-> x = Some lit.
Proof.
  destruct x as [s|]; cbn; [|split; discriminate].
  destruct (String.eqb_spec s lit); split; congruence.
Qed.

Lemma setCurrentDoorState_targetState (s : string) (a : Accessory) :
  targetState (setCurrentDoorState s a) = targetState a.
Proof. unfold setCurrentDoorState. string_cases s; reflexivity. Qed.

(** The second implementation handles a RelayTrigger event only when its key
    type is "api key": then state "open" gives CLOSING and state "closed"
    gives OPENING; with any other key type, or none, nothing changes. *)
Lemma platform_relay_trigger (frame : option RemootioFrame) (e : Event.t)
    (a : Accessory) :
  Event.type e = "RelayTrigger" ->
  let a' := Platform.handleIncomingMessage frame (Some (eventPayload e)) a in
  (dataKeyType e <> Some "api key" -> a' = a)
  /\ (dataKeyType e = Some "api key" -> Event.state e = Some "open" ->
        a' = setCurrent CurrentDoorState.CLOSING a)
  /\ (dataKeyType e = Some "api key" -> Event.state e = Some "closed" ->
        a' = setCurrent CurrentDoorState.OPENING a)
  /\ (currentState a' <> currentState a -> dataKeyType e = Some "api key").
Proof.
  intros Hty. cbn. rewrite Hty.
  pose proof (optStringIs_true (dataKeyType e) "api key") as Hiff.
  destruct (Event.state e) as [st|]; unfold andThen, when; cbn.
  - destruct (optStringIs (dataKeyType e) "api key").
    + split; [intros Hne; elim Hne; now apply Hiff|].
      split; [intros _ [= ->]; reflexivity|].
      split; [intros _ [= ->]; reflexivity|].
      intros _. now apply Hiff.
    + rewrite !andb_false_r.
      split; [reflexivity|].
      split; [intros Hk; apply Hiff in Hk; discriminate|].
      split; [intros Hk; apply Hiff in Hk; discriminate|].
      intros Hne. now elim Hne.
  - split; [reflexivity|].
    split; [intros _ [=]|].
    split; [intros _ [=]|].
    intros Hne. now elim Hne.
Qed.

(** The first implementation does not look at the key type: a RelayTrigger
    event with state "open" gives CLOSING and one with state "closed" gives
    OPENING, whatever [data] holds. *)
Lemma plugin_relay_trigger (frame : option RemootioFrame) (e : Event.t)
    (a : Accessory) :
  Event.type e = "RelayTrigger" ->
  let a' := Plugin.handleIncomingMessage frame (Some (eventPayload e)) a in
  (Event.state e = Some "open" -> a' = setCurrent CurrentDoorState.CLOSING a)
  /\ (Event.state e = Some "closed" ->
        a' = setCurrent CurrentDoorState.OPENING a).
Proof.
  intros Hty. cbn. rewrite Hty. split; intros ->; reflexivity.
Qed.

(** The second implementation settles the target on a StateChange to
    "closed": both states become CLOSED whatever the target was. *)
Lemma platform_state_change_closed (frame : option RemootioFrame)
    (e : Event.t) (a : Accessory) :
  Event.type e = "StateChange" -> Event.state e = Some "closed" ->
  Platform.handleIncomingMessage frame (Some (eventPayload e)) a
  = setTarget TargetDoorState.CLOSED (setCurrent CurrentDoorState.CLOSED a).
Proof. intros Hty Hst. cbn. rewrite Hty, Hst. reflexivity. Qed.

(** The first implementation never assigns [targetState] when a message
    comes in. *)
Lemma plugin_keeps_targetState (frame : option RemootioFrame)
    (p : option RemootioDecryptedPayload) (a : Accessory) :
  targetState (Plugin.handleIncomingMessage frame p a) = targetState a.
Proof.
  destruct p as [[[e|] [r|]]|];
    cbn [Plugin.handleIncomingMessage event response];
    try destruct (Event.state e); try destruct (Response.state r);
    unfold andThen, when;
    repeat match goal with
           | |- context [if ?b then _ else _] => destruct b
           end;
    rewrite ?setCurrentDoorState_targetState; reflexivity.
Qed.

(** C1: the first implementation (AccessoryPlugin) handles a relay trigger
    whatever its key type.  With the door reported open, a RelayTrigger event
    of state "open" sent for a key of type "master key" moves [currentState]
    from OPEN to CLOSING, where the second implementation leaves the
    accessory as it is. *)
Theorem plugin_relay_trigger_ignores_key_type :
  let a := run AccessoryPlugin
             [IncomingMessage None (Some (QueryResponse "open"))] init in
  let p := RelayTrigger "open" "master key" in
  currentState a = CurrentDoorState.OPEN
  /\ currentState (handleIncomingMessage AccessoryPlugin None (Some p) a)
     = CurrentDoorState.CLOSING
  /\ handleIncomingMessage PlatformAccessory None (Some p) a = a.
Proof. repeat split. Qed.

(** C2: the first implementation (AccessoryPlugin) leaves [targetState]
    alone on a StateChange to "closed".  After the hub has set the target to
    OPEN, the event sets [currentState] to CLOSED and [targetState] stays
    OPEN, where the second implementation sets it to CLOSED. *)
Theorem plugin_state_change_closed_keeps_target :
  let a := run AccessoryPlugin
             [DeviceFlags true true; SetTargetState (Some 0)] init in
  let p := StateChange "closed" in
  targetState a = TargetDoorState.OPEN
  /\ currentState (handleIncomingMessage AccessoryPlugin None (Some p) a)
     = CurrentDoorState.CLOSED
  /\ targetState (handleIncomingMessage AccessoryPlugin None (Some p) a)
     = TargetDoorState.OPEN
  /\ targetState (handleIncomingMessage PlatformAccessory None (Some p) a)
     = TargetDoorState.CLOSED.
Proof. repeat split. Qed.

(** ** The scenario of a read, a query response, a close request and the
    door closing *)

Example closing_scenario :
  let a1 := run PlatformAccessory [GetCurrentState] init in
  let a2 := run PlatformAccessory
              [IncomingMessage None (Some (QueryResponse "open"));
               DeviceFlags true true] a1 in
  let a3 := run PlatformAccessory [SetTargetState (Some 1)] a2 in
  let a4 := run PlatformAccessory
              [IncomingMessage None (Some (StateChange "closing"))] a3 in
  let a5 := run PlatformAccessory
              [IncomingMessage None (Some (StateChange "closed"))] a4 in
  fst (getCurrentStateHandler init) = NoValueAvailable
  /\ sent (device a1) = [Connect true; SendQuery]
  /\ fst (getCurrentStateHandler a2) = Success CurrentDoorState.OPEN
  /\ issued PlatformAccessory (SetTargetState (Some 1)) a2 = [SendClose]
  /\ targetState a3 = TargetDoorState.CLOSED
  /\ currentState a4 = CurrentDoorState.CLOSING
  /\ currentState a5 = CurrentDoorState.CLOSED
  /\ targetState a5 = TargetDoorState.CLOSED.
Proof. repeat split. Qed.

(** * Further properties of the handlers *)

(** ** Invariants of executions *)

(** An invariant of the inputs that pass [ok] is an invariant of every
    execution made of such inputs. *)
Lemma run_preserves impl (ok : Input -> bool) (P : Accessory -> Prop) :
  (forall i a, ok i = true -> P a -> P (step impl i a)) ->
  forall inputs a,
    forallb ok inputs = true -> P a -> P (run impl inputs a).
Proof.
  intros Hstep. induction inputs as [|i rest IH]; cbn; intros a Hok Ha.
  - exact Ha.
  - apply andb_true_iff in Hok. destruct Hok as [Hi Hrest].
    apply IH; auto.
Qed.

Lemma forallb_always {A : Type} (l : list A) :
  forallb (fun _ => true) l = true.
Proof. induction l; cbn; auto. Qed.

Lemma step_not_message impl i a :
  isMessage i = false ->
  currentState (step impl i a) = currentState a
  /\ updates (step impl i a) = updates a.
Proof.
  destruct i as [frame p| | | | | c au | | |[x|] | ]; cbn [isMessage step];
    intros Hi; try discriminate; try (split; reflexivity).
  - unfold getTargetStateHandler.
    destruct (targetState a <? 0), (currentState a <? 0); split; reflexivity.
  - unfold setTargetStateHandler.
    destruct (negb (x =? targetState a)); [|split; reflexivity].
    destruct (negb (isConnected (device a))
              || negb (isAuthenticated (device a))); [split; reflexivity|].
    destruct (x =? TargetDoorState.OPEN); [split; reflexivity|].
    destruct (x =? TargetDoorState.CLOSED); split; reflexivity.
Qed.

(** X1: only an incoming message changes the current state.  Whatever the
    hub asks and whatever signal or flag change comes from the device,
    [currentState] and the values pushed to the characteristic stay as they
    are, and so they do over any number of such inputs. *)
Theorem only_messages_change_current_state (impl : Implementation)
    (inputs : list Input) (a : Accessory) :
  forallb (fun i => negb (isMessage i)) inputs = true ->
  currentState (run impl inputs a) = currentState a
  /\ updates (run impl inputs a) = updates a.
Proof.
  intros Hok.
  apply (run_preserves impl (fun i => negb (isMessage i))
           (fun b => currentState b = currentState a
                     /\ updates b = updates a)); auto.
  intros i b Hi [Hc Hu]. apply negb_true_iff in Hi.
  destruct (step_not_message impl i b Hi) as [-> ->]. auto.
Qed.

Lemma only_messages_change_current_state_witness :
  let a := run PlatformAccessory
             [IncomingMessage None (Some (QueryResponse "open"))] init in
  currentState
    (run PlatformAccessory
       [DeviceFlags true true; SetTargetState (Some 1); GetTargetState;
        DeviceDisconnect "bye"; GetCurrentState] a)
  = CurrentDoorState.OPEN.
Proof.
  exact (proj1 (only_messages_change_current_state PlatformAccessory
                  [DeviceFlags true true; SetTargetState (Some 1);
                   GetTargetState; DeviceDisconnect "bye"; GetCurrentState]
                  (run PlatformAccessory
                     [IncomingMessage None (Some (QueryResponse "open"))]
                     init) eq_refl)).
Defined.

Lemma step_currentState_updates impl i a :
  last (updates a) UNKNOWN = currentState a ->
  last (updates (step impl i a)) UNKNOWN = currentState (step impl i a).
Proof.
  destruct (isMessage i) eqn:Hi.
  - destruct i; try discriminate Hi. cbn [step].
    apply (handleIncomingMessage_preserves
             (fun x => last (updates x) UNKNOWN = currentState x)); trivial.
    intros s x Hx. unfold setCurrentDoorState.
    string_cases s; cbn [setCurrent updates currentState]; trivial;
      apply last_last.
  - destruct (step_not_message impl i a Hi) as [-> ->].
    trivial.
Qed.

(** X2: in every execution the value last pushed to the CurrentDoorState
    characteristic is [currentState]; as long as nothing has been pushed,
    [currentState] is -1. *)
Theorem pushed_value_is_current_state (impl : Implementation)
    (inputs : list Input) :
  last (updates (run impl inputs init)) UNKNOWN
  = currentState (run impl inputs init).
Proof.
  apply (run_preserves impl (fun _ => true)
           (fun a => last (updates a) UNKNOWN = currentState a)).
  - intros i a _. apply step_currentState_updates.
  - apply forallb_always.
  - reflexivity.
Qed.

Lemma step_currentState_known impl i a :
  0 <= currentState a -> 0 <= currentState (step impl i a).
Proof.
  destruct (isMessage i) eqn:Hi.
  - destruct i; try discriminate Hi. cbn [step].
    apply (handleIncomingMessage_preserves
             (fun x => 0 <= currentState x)); trivial.
    intros s x Hx. unfold setCurrentDoorState.
    string_cases s; cbn; trivial; discriminate.
  - destruct (step_not_message impl i a Hi) as [-> _].
    trivial.
Qed.

(** X3: a current state that has been received is never forgotten.  From an
    accessory whose [currentState] is not negative, whatever happens next
    (disconnection and errors included), [currentState] stays non-negative
    and a read of the current state answers it instead of an error. *)
Theorem current_state_stays_known (impl : Implementation)
    (inputs : list Input) (a : Accessory) :
  0 <= currentState a ->
  let a' := run impl inputs a in
  0 <= currentState a'
  /\ fst (getCurrentStateHandler a') = Success (currentState a').
Proof.
  intros Ha. cbn zeta.
  assert (Hk : 0 <= currentState (run impl inputs a)).
  { apply (run_preserves impl (fun _ => true)
             (fun x => 0 <= currentState x)); trivial.
    - intros i x _. apply step_currentState_known.
    - apply forallb_always. }
  split; [exact Hk|].
  unfold getCurrentStateHandler. cbn [fst].
  destruct (Z.ltb_spec (currentState (run impl inputs a)) 0); [lia|].
  reflexivity.
Qed.

Lemma current_state_stays_known_witness :
  let a := run AccessoryPlugin
             [IncomingMessage None (Some (StateChange "closed"))] init in
  fst (getCurrentStateHandler
         (run AccessoryPlugin
            [DeviceDisconnect "lost"; DeviceFlags false false;
             DeviceError "timeout"] a))
  = Success CurrentDoorState.CLOSED.
Proof.
  pose (a := run AccessoryPlugin
               [IncomingMessage None (Some (StateChange "closed"))] init).
  assert (Ha : 0 <= currentState a) by discriminate.
  exact (proj2 (current_state_stays_known AccessoryPlugin
                  [DeviceDisconnect "lost"; DeviceFlags false false;
                   DeviceError "timeout"] a Ha)).
Defined.

(** X4: neither read handler ever answers a negative number: an answer of
    [getCurrentStateHandler] or of [getTargetStateHandler] that is not an
    error is zero or more, in every state of the accessory. *)
Theorem reads_never_answer_unknown (a : Accessory) (v : Z) :
  (fst (getCurrentStateHandler a) = Success v -> 0 <= v)
  /\ (fst (getTargetStateHandler a) = Success v -> 0 <= v).
Proof.
  unfold getCurrentStateHandler, getTargetStateHandler. split.
  - cbn [fst]. destruct (Z.ltb_spec (currentState a) 0);
      intros [= <-]. assumption.
  - destruct (Z.ltb_spec (targetState a) 0);
      [destruct (Z.ltb_spec (currentState a) 0)|]; cbn;
      intros [= <-]; assumption.
Qed.

Lemma reads_never_answer_unknown_witness :
  let a := run PlatformAccessory
             [IncomingMessage None (Some (RelayTrigger "closed" "api key"))]
             init in
  fst (getTargetStateHandler a) = Success CurrentDoorState.OPENING
  /\ 0 <= CurrentDoorState.OPENING.
Proof.
  pose (a := run PlatformAccessory
               [IncomingMessage None (Some (RelayTrigger "closed" "api key"))]
               init).
  assert (H : fst (getTargetStateHandler a) = Success CurrentDoorState.OPENING)
    by reflexivity.
  split; [exact H|].
  exact (proj2 (reads_never_answer_unknown a CurrentDoorState.OPENING) H).
Defined.

(** ** Requests for a target state *)

Lemma setTargetStateHandler_ready (x : Z) (a : Accessory) :
  x <> targetState a -> ready a = true ->
  let a' := snd (setTargetStateHandler (Some x) a) in
  fst (setTargetStateHandler (Some x) a) = Success tt
  /\ targetState a' = x
  /\ currentState a' = currentState a
  /\ updates a' = updates a
  /\ isConnected (device a') = true /\ isAuthenticated (device a') = true
  /\ sent (device a')
     = sent (device a)
       ++ (if x =? TargetDoorState.OPEN then [SendOpen]
           else if x =? TargetDoorState.CLOSED then [SendClose] else []).
Proof.
  intros Hne Hready. unfold ready in Hready.
  apply andb_true_iff in Hready. destruct Hready as [Hc Hau].
  unfold setTargetStateHandler.
  destruct (Z.eqb_spec x (targetState a)) as [Heq|_]; [contradiction|].
  rewrite Hc, Hau. cbn [negb orb].
  destruct (x =? TargetDoorState.OPEN); [cbn; rewrite Hc, Hau; auto 10|].
  destruct (x =? TargetDoorState.CLOSED); cbn; rewrite ?Hc, ?Hau;
    rewrite ?app_nil_r; auto 10.
Qed.

(** X5: a request for a target other than the present one that reaches a
    connected and authenticated device succeeds: [targetState] becomes the
    requested value, the device receives [sendOpen] for OPEN, [sendClose]
    for CLOSED and nothing for any other value (which is stored all the
    same), and the current state, the pushed values and the flags are left
    alone. *)
Theorem set_target_state_when_ready (x : Z) (a : Accessory) :
  x <> targetState a -> ready a = true ->
  let a' := snd (setTargetStateHandler (Some x) a) in
  fst (setTargetStateHandler (Some x) a) = Success tt
  /\ targetState a' = x
  /\ currentState a' = currentState a
  /\ updates a' = updates a
  /\ isConnected (device a') = true /\ isAuthenticated (device a') = true
  /\ sent (device a')
     = sent (device a)
       ++ (if x =? TargetDoorState.OPEN then [SendOpen]
           else if x =? TargetDoorState.CLOSED then [SendClose] else []).
Proof. exact (setTargetStateHandler_ready x a). Qed.

Lemma set_target_state_when_ready_witness :
  let a := run PlatformAccessory [DeviceFlags true true] init in
  targetState (snd (setTargetStateHandler (Some 4) a)) = 4
  /\ sent (device (snd (setTargetStateHandler (Some 4) a))) = [Connect true]
  /\ sent (device (snd (setTargetStateHandler (Some 1) a)))
     = [Connect true; SendClose].
Proof.
  pose (a := run PlatformAccessory [DeviceFlags true true] init).
  assert (H4 : 4 <> targetState a) by discriminate.
  assert (H1 : 1 <> targetState a) by discriminate.
  destruct (set_target_state_when_ready 4 a H4 eq_refl)
    as (_ & Ht & _ & _ & _ & _ & Hs).
  destruct (set_target_state_when_ready 1 a H1 eq_refl)
    as (_ & _ & _ & _ & _ & _ & Hs1).
  split; [exact Ht|]. split; [exact Hs | exact Hs1].
Defined.

(** X6: what the hub sets it reads back.  With the device connected and
    authenticated, a request for a value that is not negative succeeds and
    the next read of the target state answers that value and changes
    nothing, whatever the target was before. *)
Theorem set_then_get_target_state (x : Z) (a : Accessory) :
  ready a = true -> 0 <= x ->
  let a' := snd (setTargetStateHandler (Some x) a) in
  fst (setTargetStateHandler (Some x) a) = Success tt
  /\ getTargetStateHandler a' = (Success x, a').
Proof.
  intros Hready Hx. cbn zeta.
  assert (Hget : forall b, targetState b = x ->
                   getTargetStateHandler b = (Success x, b)).
  { intros b Hb. unfold getTargetStateHandler. rewrite Hb.
    destruct (Z.ltb_spec x 0); [lia|reflexivity]. }
  destruct (Z.eq_dec x (targetState a)) as [Heq|Hne].
  - assert (Hs : setTargetStateHandler (Some x) a = (Success tt, a)).
    { unfold setTargetStateHandler. rewrite <- Heq, Z.eqb_refl. reflexivity. }
    rewrite Hs. cbn [fst snd]. split; [reflexivity|]. now apply Hget.
  - destruct (setTargetStateHandler_ready x a Hne Hready) as (Hr & Ht & _).
    split; [exact Hr|]. now apply Hget.
Qed.

Lemma set_then_get_target_state_witness :
  let a := run AccessoryPlugin [DeviceFlags true true] init in
  fst (getTargetStateHandler (snd (setTargetStateHandler (Some 0) a)))
  = Success TargetDoorState.OPEN.
Proof.
  pose (a := run AccessoryPlugin [DeviceFlags true true] init).
  assert (H0 : 0 <= 0) by discriminate.
  destruct (set_then_get_target_state 0 a eq_refl H0) as (_ & Hget).
  exact (f_equal fst Hget).
Defined.

(** X7: a request that is answered with an error has changed nothing.  When
    [setTargetStateHandler] fails, the value was [undefined] ("no value") or
    the device was not ready ("Not Connected"), and the accessory is as
    before; when [getTargetStateHandler] fails, both states are negative and
    the accessory is as before. *)
Theorem failed_requests_change_nothing (v : option Z) (a : Accessory)
    (msg : string) :
  (fst (setTargetStateHandler v a) = Failure msg ->
     snd (setTargetStateHandler v a) = a
     /\ ((v = None /\ msg = "no value")
         \/ (ready a = false /\ msg = "Not Connected")))
  /\ (fst (getTargetStateHandler a) = Failure msg ->
        snd (getTargetStateHandler a) = a
        /\ msg = "No value available"
        /\ targetState a < 0 /\ currentState a < 0).
Proof.
  split.
  - unfold setTargetStateHandler, ready. destruct v as [x|].
    + destruct (negb (x =? targetState a)); [|discriminate].
      destruct (isConnected (device a)), (isAuthenticated (device a));
        cbn; try discriminate; intros [= <-]; auto.
    + cbn. intros [= <-]. auto.
  - unfold getTargetStateHandler.
    destruct (Z.ltb_spec (targetState a) 0); [|discriminate].
    destruct (Z.ltb_spec (currentState a) 0); [|discriminate].
    cbn. intros [= <-]. auto.
Qed.

Lemma failed_requests_change_nothing_witness :
  snd (setTargetStateHandler None init) = init
  /\ snd (getTargetStateHandler init) = init.
Proof.
  destruct (failed_requests_change_nothing None init "no value")
    as (Hset & _).
  destruct (failed_requests_change_nothing None init "No value available")
    as (_ & Hget).
  split; [exact (proj1 (Hset eq_refl)) | exact (proj1 (Hget eq_refl))].
Defined.

(** ** Incoming messages *)

(** X8: a message that carries no state the handler looks at changes
    nothing.  A frame without decrypted payload, an event of another type
    than StateChange and RelayTrigger (LeftOpen, say), an event or response
    without state and a response of another type than QUERY (the answer to
    an OPEN or CLOSE command, say) leave the accessory as it is, in either
    implementation. *)
Theorem messages_without_state_are_ignored (impl : Implementation)
    (frame : option RemootioFrame) (p : option RemootioDecryptedPayload)
    (a : Accessory) :
  (forall q, p = Some q -> carriesState q = false) ->
  handleIncomingMessage impl frame p a = a.
Proof.
  intros Hp. destruct p as [q|]; [|destruct impl; reflexivity].
  specialize (Hp q eq_refl). unfold carriesState in Hp.
  apply orb_false_iff in Hp. destruct Hp as [He Hr].
  destruct q as [[e|] [r|]];
    destruct impl; cbn in *; unfold andThen, when;
    try destruct (Event.state e) as [st|];
    try destruct (Response.state r) as [rst|];
    try (apply orb_false_iff in He; destruct He as [-> ->]);
    try rewrite Hr; cbn; reflexivity.
Qed.

Lemma messages_without_state_are_ignored_witness :
  let a := run PlatformAccessory
             [IncomingMessage None (Some (StateChange "open"))] init in
  handleIncomingMessage PlatformAccessory None
    (Some (mkPayload
             (Some (Event.mk 2 "LeftOpen" (Some "open") 0
                      (Some (mkData None None None (Some 600)))))
             (Some (Response.mk "CLOSE" 3 true (Some "open") 0 true ""))))
    a = a.
Proof.
  apply messages_without_state_are_ignored.
  intros q [= <-]. reflexivity.
Defined.

Lemma setCurrentDoorState_setTarget (s : string) (v : Z) (a : Accessory) :
  setCurrentDoorState s (setTarget v a)
  = setTarget v (setCurrentDoorState s a).
Proof. unfold setCurrentDoorState. string_cases s; reflexivity. Qed.

(** X9: where the two implementations differ, and only there.  On every
    payload other than a StateChange to "closed" and a RelayTrigger of state
    "open" or "closed" whose key type is not "api key", the two versions of
    [handleIncomingMessage] give the same accessory; on a StateChange to
    "closed" the second version gives what the first gives with
    [targetState] set to CLOSED. *)
Theorem implementations_agree (frame : option RemootioFrame)
    (p : option RemootioDecryptedPayload) (a : Accessory) :
  (partsWays p = false ->
     Platform.handleIncomingMessage frame p a
     = Plugin.handleIncomingMessage frame p a)
  /\ (forall q e,
        p = Some q -> event q = Some e ->
        Event.type e = "StateChange" -> Event.state e = Some "closed" ->
        Platform.handleIncomingMessage frame p a
        = setTarget TargetDoorState.CLOSED
            (Plugin.handleIncomingMessage frame p a)).
Proof.
  split.
  - destruct p as [[[e|] r]|]; cbn [partsWays]; try reflexivity.
    cbn [Platform.handleIncomingMessage Plugin.handleIncomingMessage event].
    destruct (Event.state e) as [st|]; [|reflexivity].
    unfold andThen, when.
    destruct (Event.type e =? "StateChange")%string,
      (Event.type e =? "RelayTrigger")%string,
      (st =? "open")%string, (st =? "closed")%string,
      (optStringIs (dataKeyType e) "api key");
      cbn; intros H; try discriminate H; reflexivity.
  - intros q e -> He Hty Hst. destruct q as [ev r]. cbn in He. subst ev.
    cbn [Platform.handleIncomingMessage Plugin.handleIncomingMessage
           event response].
    rewrite Hty, Hst. unfold andThen, when. cbn.
    destruct r as [r|]; [|reflexivity].
    destruct (Response.state r) as [rst|]; [|reflexivity].
    destruct (Response.type r =? "QUERY")%string; [|reflexivity].
    apply setCurrentDoorState_setTarget.
Qed.

Lemma implementations_agree_witness :
  Platform.handleIncomingMessage None (Some (RelayTrigger "open" "api key"))
    init
  = Plugin.handleIncomingMessage None (Some (RelayTrigger "open" "api key"))
      init
  /\ Platform.handleIncomingMessage None (Some (StateChange "closed")) init
     = setTarget TargetDoorState.CLOSED
         (Plugin.handleIncomingMessage None (Some (StateChange "closed"))
            init).
Proof.
  split.
  - exact (proj1 (implementations_agree None
                    (Some (RelayTrigger "open" "api key")) init) eq_refl).
  - exact (proj2 (implementations_agree None
                    (Some (StateChange "closed")) init)
             (StateChange "closed")
             (Event.mk 1 "StateChange" (Some "closed") 0 None)
             eq_refl eq_refl eq_refl eq_refl).
Defined.

(** X10: in the second implementation a StateChange to "closed" settles a
    pending request.  After it both reads answer CLOSED, and a request for
    CLOSED succeeds without a command to the device, even if the target was
    OPEN before and the device is ready. *)
Theorem platform_closed_settles_target (frame : option RemootioFrame)
    (e : Event.t) (a : Accessory) :
  Event.type e = "StateChange" -> Event.state e = Some "closed" ->
  let a' := Platform.handleIncomingMessage frame (Some (eventPayload e)) a in
  fst (getCurrentStateHandler a') = Success CurrentDoorState.CLOSED
  /\ getTargetStateHandler a' = (Success TargetDoorState.CLOSED, a')
  /\ setTargetStateHandler (Some TargetDoorState.CLOSED) a' = (Success tt, a').
Proof.
  intros Hty Hst. cbn zeta.
  rewrite (platform_state_change_closed frame e a Hty Hst).
  repeat split.
Qed.

Lemma platform_closed_settles_target_witness :
  let a := run PlatformAccessory
             [DeviceFlags true true; SetTargetState (Some 0)] init in
  let a' := Platform.handleIncomingMessage None
              (Some (StateChange "closed")) a in
  targetState a = TargetDoorState.OPEN
  /\ setTargetStateHandler (Some TargetDoorState.CLOSED) a' = (Success tt, a').
Proof.
  pose (a := run PlatformAccessory
               [DeviceFlags true true; SetTargetState (Some 0)] init).
  destruct (platform_closed_settles_target None
              (Event.mk 1 "StateChange" (Some "closed") 0 None) a
              eq_refl eq_refl) as (_ & _ & Hset).
  split; [reflexivity | exact Hset].
Defined.

(** ** The commands of a whole execution *)

Lemma sent_run impl inputs a :
  exists more,
    sent (device (run impl inputs a)) = sent (device a) ++ more.
Proof.
  revert a. induction inputs as [|i rest IH]; cbn; intros a.
  - exists []. symmetry. apply app_nil_r.
  - destruct (IH (step impl i a)) as [more Hmore].
    exists (issued impl i a ++ more).
    rewrite Hmore, sent_step. symmetry. apply app_assoc.
Qed.

Lemma count_app {A : Type} (p : A -> bool) (l k : list A) :
  count p (l ++ k) = (count p l + count p k)%nat.
Proof. unfold count. rewrite filter_app. apply length_app. Qed.

Lemma count_cons {A : Type} (p : A -> bool) (x : A) (l : list A) :
  count p (x :: l) = ((if p x then 1 else 0) + count p l)%nat.
Proof. unfold count. cbn. destruct (p x); reflexivity. Qed.

(** The commands of an execution counted against its inputs, when each input
    accounts for a bounded number of them. *)
Lemma count_sent_run impl (p : Command -> bool) (q : Input -> bool) :
  (forall i a, (count p (issued impl i a) <= if q i then 1 else 0)%nat) ->
  forall inputs a,
    (count p (sent (device (run impl inputs a)))
     <= count p (sent (device a)) + count q inputs)%nat.
Proof.
  intros Hstep. induction inputs as [|i rest IH]; cbn [run]; intros a.
  - cbn. lia.
  - specialize (IH (step impl i a)). rewrite sent_step, count_app in IH.
    specialize (Hstep i a). rewrite count_cons.
    destruct (q i); lia.
Qed.

Lemma count_sent_run_exact impl (p : Command -> bool) (q : Input -> bool) :
  (forall i a, count p (issued impl i a) = if q i then 1%nat else 0%nat) ->
  forall inputs a,
    count p (sent (device (run impl inputs a)))
    = (count p (sent (device a)) + count q inputs)%nat.
Proof.
  intros Hstep. induction inputs as [|i rest IH]; cbn [run]; intros a.
  - cbn. lia.
  - specialize (IH (step impl i a)). rewrite sent_step, count_app in IH.
    specialize (Hstep i a). rewrite count_cons.
    destruct (q i); lia.
Qed.

(** X11: the commands of an execution, counted.  Since its construction the
    device has received [connect] once, [authenticate] once for every
    'connected' signal, [sendQuery] once for every read of the current state,
    and at most one [sendOpen] or [sendClose] for every request to set the
    target; the commands already received are never taken back. *)
Theorem commands_counted (impl : Implementation) (inputs : list Input) :
  let a := run impl inputs init in
  count isConnect (sent (device a)) = 1%nat
  /\ count isAuthenticate (sent (device a)) = count isDeviceConnected inputs
  /\ count isSendQuery (sent (device a)) = count isGetCurrentState inputs
  /\ (count isDoorCommand (sent (device a))
      <= count isSetTargetState inputs)%nat
  /\ exists more, sent (device a) = Connect true :: more.
Proof.
  cbn zeta. repeat split.
  - rewrite (count_sent_run_exact impl isConnect (fun _ => false)).
    + cbn. induction inputs; cbn; auto.
    + intros i a. rewrite issued_spec.
      destruct i as [frame p| | | | | c au | | |[x|] | ]; try reflexivity.
      destruct (negb (x =? targetState a) && ready a); try reflexivity.
      destruct (x =? TargetDoorState.OPEN); try reflexivity.
      destruct (x =? TargetDoorState.CLOSED); reflexivity.
  - rewrite (count_sent_run_exact impl isAuthenticate isDeviceConnected).
    + reflexivity.
    + intros i a. rewrite issued_spec.
      destruct i as [frame p| | | | | c au | | |[x|] | ]; try reflexivity.
      destruct (negb (x =? targetState a) && ready a); try reflexivity.
      destruct (x =? TargetDoorState.OPEN); try reflexivity.
      destruct (x =? TargetDoorState.CLOSED); reflexivity.
  - rewrite (count_sent_run_exact impl isSendQuery isGetCurrentState).
    + reflexivity.
    + intros i a. rewrite issued_spec.
      destruct i as [frame p| | | | | c au | | |[x|] | ]; try reflexivity.
      destruct (negb (x =? targetState a) && ready a); try reflexivity.
      destruct (x =? TargetDoorState.OPEN); try reflexivity.
      destruct (x =? TargetDoorState.CLOSED); reflexivity.
  - apply (count_sent_run impl isDoorCommand isSetTargetState).
    intros i a. rewrite issued_spec.
    destruct i as [frame p| | | | | c au | | |[x|] | ]; cbn; try lia.
    destruct (negb (x =? targetState a) && ready a); cbn; try lia.
    destruct (x =? TargetDoorState.OPEN); cbn; try lia.
    destruct (x =? TargetDoorState.CLOSED); cbn; lia.
  - destruct (sent_run impl inputs init) as [more Hmore].
    exists more. exact Hmore.
Qed.

(** ** The range of the target state *)

(** As [handleIncomingMessage_preserves], for a property that an assignment
    of CLOSED to [targetState] keeps but another assignment might not. *)
Section PreservationClosed.

Variable P : Accessory -> Prop.
Hypothesis P_setCurrentDoorState :
  forall s a, P a -> P (setCurrentDoorState s a).
Hypothesis P_setTargetClosed :
  forall a, P a -> P (setTarget TargetDoorState.CLOSED a).

Lemma handleIncomingMessage_preserves_closed impl frame p a :
  P a -> P (handleIncomingMessage impl frame p a).
Proof.
  revert a.
  destruct impl, p as [[[e|] [r|]]|];
    cbn [handleIncomingMessage Plugin.handleIncomingMessage
           Platform.handleIncomingMessage event response];
    try destruct (Event.state e); try destruct (Response.state r);
    unfold andThen, when; intros a Ha;
    repeat match goal with
           | |- context [if ?b then _ else _] => destruct b
           end;
    auto 8.
Qed.

End PreservationClosed.

Lemma step_state_ranges impl i a :
  requestsDoorState i = true ->
  In (currentState a) currentValues /\ In (targetState a) currentValues ->
  In (currentState (step impl i a)) currentValues
  /\ In (targetState (step impl i a)) currentValues.
Proof.
  intros Hi Ha.
  destruct i as [frame p| | | | | c au | | |[x|] | ]; cbn [step];
    try exact Ha.
  - apply (handleIncomingMessage_preserves_closed
             (fun b => In (currentState b) currentValues
                       /\ In (targetState b) currentValues)); trivial.
    + intros s b [Hc Ht]. unfold setCurrentDoorState.
      string_cases s; cbn [setCurrent currentState targetState];
        (split; [cbn; auto 7 | exact Ht]) || (split; assumption).
    + intros b [Hc Ht]. split; [exact Hc | cbn; auto].
  - destruct Ha as [Hc Ht]. unfold getTargetStateHandler.
    destruct (targetState a <? 0), (currentState a <? 0); cbn; auto.
  - destruct Ha as [Hc Ht]. cbn in Hi. unfold setTargetStateHandler.
    destruct (negb (x =? targetState a)); [|auto].
    destruct (negb (isConnected (device a))
              || negb (isAuthenticated (device a))); [auto|].
    destruct (Z.eqb_spec x TargetDoorState.OPEN) as [->|_];
      [cbn; auto|].
    destruct (Z.eqb_spec x TargetDoorState.CLOSED) as [->|_];
      [cbn; auto|].
    discriminate Hi.
Qed.

(** X12: as long as the hub asks for OPEN or CLOSED only, [targetState] is
    -1, OPEN, CLOSED, OPENING (2) or CLOSING (3) in every execution: it is
    never STOPPED, and the values 2 and 3 are in the range because
    [getTargetStateHandler] adopts the current state; a read of the target
    state then answers a value from 0 to 3 or an error. *)
Theorem target_state_range (impl : Implementation) (inputs : list Input) :
  forallb requestsDoorState inputs = true ->
  let a := run impl inputs init in
  In (targetState a) currentValues
  /\ forall v, fst (getTargetStateHandler a) = Success v -> 0 <= v <= 3.
Proof.
  intros Hok. cbn zeta.
  assert (Hr : In (currentState (run impl inputs init)) currentValues
               /\ In (targetState (run impl inputs init)) currentValues).
  { apply (run_preserves impl requestsDoorState
             (fun b => In (currentState b) currentValues
                       /\ In (targetState b) currentValues)); trivial.
    - intros i b Hi Hb. now apply step_state_ranges.
    - cbn. auto. }
  destruct Hr as [Hc Ht]. split; [exact Ht|].
  intros v. unfold getTargetStateHandler.
  unfold currentValues, UNKNOWN, CurrentDoorState.OPEN,
    CurrentDoorState.CLOSED, CurrentDoorState.OPENING,
    CurrentDoorState.CLOSING in Hc, Ht. cbn in Hc, Ht.
  destruct (Z.ltb_spec (targetState (run impl inputs init)) 0);
    [destruct (Z.ltb_spec (currentState (run impl inputs init)) 0)|];
    cbn; intros [= <-]; lia.
Qed.

Lemma target_state_range_witness :
  let inputs := [IncomingMessage None (Some (RelayTrigger "closed" "api key"));
                 GetTargetState] in
  targetState (run PlatformAccessory inputs init) = CurrentDoorState.OPENING
  /\ In (targetState (run PlatformAccessory inputs init)) currentValues.
Proof.
  split; [reflexivity|].
  exact (proj1 (target_state_range PlatformAccessory
                  [IncomingMessage None
                     (Some (RelayTrigger "closed" "api key"));
                   GetTargetState] eq_refl)).
Defined.

(** ** Door commands are not repeated *)

Lemma repeats_snoc (c d : Command) (l : list Command) :
  isDoorCommand c = true ->
  repeats c (l ++ [d])
  = repeats c l || (Command_eqb (last l Authenticate) c && Command_eqb d c).
Proof.
  intros Hc. induction l as [|x l IH].
  - cbn. destruct c; try discriminate Hc; reflexivity.
  - destruct l as [|y l].
    + cbn. destruct (Command_eqb x c), (Command_eqb d c); reflexivity.
    + change (repeats c ((x :: y :: l) ++ [d]))
        with ((Command_eqb x c && Command_eqb y c)
              || repeats c ((y :: l) ++ [d])).
      rewrite IH.
      change (repeats c (x :: y :: l))
        with ((Command_eqb x c && Command_eqb y c) || repeats c (y :: l)).
      change (last (x :: y :: l) Authenticate)
        with (last (y :: l) Authenticate).
      now rewrite orb_assoc.
Qed.

Lemma doorCommands_call (c : Command) (a : Accessory) :
  doorCommands (call c a)
  = doorCommands a ++ (if isDoorCommand c then [c] else []).
Proof.
  unfold doorCommands, call. cbn [device sent].
  rewrite filter_app. cbn. destruct (isDoorCommand c); reflexivity.
Qed.

Lemma doorInvariant_same impl a b :
  sent (device b) = sent (device a) ->
  targetState b = targetState a
  \/ (impl = PlatformAccessory /\ targetState b = TargetDoorState.CLOSED) ->
  doorInvariant impl a -> doorInvariant impl b.
Proof.
  unfold doorInvariant, lastDoorCommand, doorCommands.
  intros -> Ht (Hrc & Hlc & Hplug).
  split; [exact Hrc|]. split.
  - intros Hl. destruct Ht as [-> | [_ ->]]; auto.
  - intros ->. destruct (Hplug eq_refl) as [Hro Hlo].
    split; [exact Hro|]. intros Hl.
    destruct Ht as [-> | [Himpl _]]; [auto | discriminate Himpl].
Qed.

Lemma handleIncomingMessage_targetState impl frame p a :
  targetState (handleIncomingMessage impl frame p a) = targetState a
  \/ (impl = PlatformAccessory
      /\ targetState (handleIncomingMessage impl frame p a)
         = TargetDoorState.CLOSED).
Proof.
  destruct impl.
  - left. apply plugin_keeps_targetState.
  - apply (handleIncomingMessage_preserves_closed
             (fun b => targetState b = targetState a
                       \/ (PlatformAccessory = PlatformAccessory
                           /\ targetState b = TargetDoorState.CLOSED)));
      auto.
    intros s b Hb. now rewrite setCurrentDoorState_targetState.
Qed.

Lemma step_doorInvariant impl i a :
  requestsDoorState i = true ->
  doorInvariant impl a -> doorInvariant impl (step impl i a).
Proof.
  intros Hi Ha.
  destruct i as [frame p| | | | | c au | | |[x|] | ]; cbn [step];
    try exact Ha.
  - apply (doorInvariant_same impl a); trivial.
    + now rewrite handleIncomingMessage_device.
    + apply handleIncomingMessage_targetState.
  - unfold doorInvariant, lastDoorCommand in *.
    rewrite doorCommands_call. cbn [isDoorCommand].
    rewrite app_nil_r. exact Ha.
  - unfold doorInvariant, lastDoorCommand in *.
    cbn [getCurrentStateHandler snd].
    rewrite doorCommands_call. cbn [isDoorCommand].
    rewrite app_nil_r. exact Ha.
  - unfold getTargetStateHandler.
    destruct (Z.ltb_spec (targetState a) 0) as [Hneg|_]; [|exact Ha].
    destruct (currentState a <? 0); [exact Ha|]. cbn [snd].
    destruct Ha as (Hrc & Hlc & Hplug).
    unfold doorInvariant, lastDoorCommand, doorCommands in *.
    cbn [setTarget device targetState].
    split; [exact Hrc|]. split.
    + intros Hl. apply Hlc in Hl. rewrite Hl in Hneg. discriminate Hneg.
    + intros Himpl. destruct (Hplug Himpl) as [Hro Hlo].
      split; [exact Hro|]. intros Hl. apply Hlo in Hl.
      rewrite Hl in Hneg. discriminate Hneg.
  - cbn in Hi. unfold setTargetStateHandler.
    destruct (Z.eqb_spec x (targetState a)) as [_|Hne]; [exact Ha|].
    cbn [negb].
    destruct (negb (isConnected (device a))
              || negb (isAuthenticated (device a))); [exact Ha|].
    cbn [snd]. destruct Ha as (Hrc & Hlc & Hplug).
    unfold doorInvariant, lastDoorCommand in *.
    destruct (Z.eqb_spec x TargetDoorState.OPEN) as [->|Hno].
    + rewrite doorCommands_call. cbn [isDoorCommand].
      rewrite last_last, !repeats_snoc by reflexivity.
      change (doorCommands (setTarget TargetDoorState.OPEN a))
        with (doorCommands a).
      cbn [call setTarget targetState Command_eqb].
      rewrite Hrc, andb_false_r. split; [reflexivity|].
      split; [discriminate|]. intros Himpl.
      destruct (Hplug Himpl) as [Hro Hlo]. rewrite Hro.
      split; [|reflexivity].
      destruct (last (doorCommands a) Authenticate) eqn:Hl;
        try reflexivity.
      elim Hne. symmetry. now apply Hlo.
    + destruct (Z.eqb_spec x TargetDoorState.CLOSED) as [->|Hnc];
        [|discriminate Hi].
      rewrite doorCommands_call. cbn [isDoorCommand].
      rewrite last_last, !repeats_snoc by reflexivity.
      change (doorCommands (setTarget TargetDoorState.CLOSED a))
        with (doorCommands a).
      cbn [call setTarget targetState Command_eqb].
      rewrite Hrc. split.
      * destruct (last (doorCommands a) Authenticate) eqn:Hl;
          try reflexivity.
        elim Hne. symmetry. now apply Hlc.
      * split; [reflexivity|]. intros Himpl.
        destruct (Hplug Himpl) as [Hro Hlo]. rewrite Hro, andb_false_r.
        split; [reflexivity | discriminate].
Qed.

(** X13: door commands are not sent twice in a row.  As long as the hub asks
    for OPEN or CLOSED only, the device never receives [sendClose] directly
    after [sendClose] (other commands apart), in either implementation; in
    the first implementation it never receives [sendOpen] directly after
    [sendOpen] either, so that its door commands alternate. *)
Theorem door_commands_not_repeated (impl : Implementation)
    (inputs : list Input) :
  forallb requestsDoorState inputs = true ->
  let a := run impl inputs init in
  repeats SendClose (doorCommands a) = false
  /\ (impl = AccessoryPlugin -> repeats SendOpen (doorCommands a) = false).
Proof.
  intros Hok. cbn zeta.
  assert (Hinv : doorInvariant impl (run impl inputs init)).
  { apply (run_preserves impl requestsDoorState (doorInvariant impl));
      trivial.
    - intros i b. apply step_doorInvariant.
    - unfold doorInvariant, lastDoorCommand. cbn.
      repeat split; discriminate. }
  destruct Hinv as (Hrc & _ & Hplug).
  split; [exact Hrc|]. intros Himpl. exact (proj1 (Hplug Himpl)).
Qed.

Lemma door_commands_not_repeated_witness :
  let inputs := [DeviceFlags true true; SetTargetState (Some 0);
                 SetTargetState (Some 0); GetCurrentState;
                 IncomingMessage None (Some (StateChange "closed"));
                 SetTargetState (Some 1); SetTargetState (Some 0)] in
  doorCommands (run AccessoryPlugin inputs init)
  = [SendOpen; SendClose; SendOpen]
  /\ doorCommands (run PlatformAccessory inputs init) = [SendOpen; SendOpen]
  /\ repeats SendOpen (doorCommands (run AccessoryPlugin inputs init)) = false
  /\ repeats SendClose (doorCommands (run PlatformAccessory inputs init))
     = false.
Proof.
  pose (inputs := [DeviceFlags true true; SetTargetState (Some 0);
                   SetTargetState (Some 0); GetCurrentState;
                   IncomingMessage None (Some (StateChange "closed"));
                   SetTargetState (Some 1); SetTargetState (Some 0)]).
  destruct (door_commands_not_repeated AccessoryPlugin inputs eq_refl)
    as (_ & Hopen).
  destruct (door_commands_not_repeated PlatformAccessory inputs eq_refl)
    as (Hclose & _).
  split; [reflexivity|]. split; [reflexivity|].
  split; [exact (Hopen eq_refl) | exact Hclose].
Defined.

(** ** Relay triggers and the target state, per implementation *)

(** X14: the second implementation infers a movement from a relay trigger
    only when the key type is "api key".  Then state "open" gives CLOSING and
    state "closed" gives OPENING, with the value pushed to the
    characteristic; a RelayTrigger event with another key type, or without
    one, changes nothing, so a change of [currentState] by such an event
    proves the key type "api key". *)
Theorem platform_relay_trigger_needs_api_key (frame : option RemootioFrame)
    (e : Event.t) (a : Accessory) :
  Event.type e = "RelayTrigger" ->
  let a' := Platform.handleIncomingMessage frame (Some (eventPayload e)) a in
  (dataKeyType e <> Some "api key" -> a' = a)
  /\ (dataKeyType e = Some "api key" -> Event.state e = Some "open" ->
        a' = setCurrent CurrentDoorState.CLOSING a)
  /\ (dataKeyType e = Some "api key" -> Event.state e = Some "closed" ->
        a' = setCurrent CurrentDoorState.OPENING a)
  /\ (currentState a' <> currentState a -> dataKeyType e = Some "api key").
Proof. exact (platform_relay_trigger frame e a). Qed.

Lemma platform_relay_trigger_needs_api_key_witness :
  let a := run PlatformAccessory
             [IncomingMessage None (Some (StateChange "open"))] init in
  Platform.handleIncomingMessage None
    (Some (RelayTrigger "open" "api key")) a
  = setCurrent CurrentDoorState.CLOSING a
  /\ Platform.handleIncomingMessage None
       (Some (eventPayload (Event.mk 1 "RelayTrigger" (Some "open") 0 None)))
       a = a.
Proof.
  pose (a := run PlatformAccessory
               [IncomingMessage None (Some (StateChange "open"))] init).
  destruct (platform_relay_trigger_needs_api_key None
              (Event.mk 1 "RelayTrigger" (Some "open") 0
                 (Some (mkData (Some 1) (Some "api key") (Some "bluetooth")
                          None))) a eq_refl) as (_ & Hopen & _).
  destruct (platform_relay_trigger_needs_api_key None
              (Event.mk 1 "RelayTrigger" (Some "open") 0 None) a eq_refl)
    as (Hother & _).
  split; [exact (Hopen eq_refl eq_refl)|].
  apply Hother. discriminate.
Defined.

(** X15: what an incoming message can do to the target state.  In the first
    implementation no message changes [targetState]; in the second a message
    changes it only to CLOSED, and only when it carries a StateChange event
    of state "closed".  No message, in either implementation, sends a
    command or touches the flags. *)
Theorem messages_and_target_state (impl : Implementation)
    (frame : option RemootioFrame) (p : option RemootioDecryptedPayload)
    (a : Accessory) :
  let a' := handleIncomingMessage impl frame p a in
  device a' = device a
  /\ (impl = AccessoryPlugin -> targetState a' = targetState a)
  /\ (targetState a' <> targetState a ->
        targetState a' = TargetDoorState.CLOSED
        /\ exists q e,
             p = Some q /\ event q = Some e
             /\ Event.type e = "StateChange"
             /\ Event.state e = Some "closed").
Proof.
  cbn zeta. split; [apply handleIncomingMessage_device|]. split.
  - intros ->. apply plugin_keeps_targetState.
  - intros Hne. split.
    + destruct (handleIncomingMessage_targetState impl frame p a)
        as [Hsame | [_ Hclosed]]; [contradiction | exact Hclosed].
    + destruct impl; [elim Hne; apply plugin_keeps_targetState|].
      destruct p as [[[e|] r]|]; cbn in Hne.
      * destruct (Event.state e) as [st|] eqn:Hst.
        -- destruct (String.eqb_spec (Event.type e) "StateChange")
             as [Hty|Hty].
           ++ destruct (String.eqb_spec st "closed") as [->|Hcl].
              ** exists (mkPayload (Some e) r), e. auto.
              ** elim Hne. unfold andThen, when.
                 rewrite Hty. cbn.
                 destruct (String.eqb_spec st "closed"); [contradiction|].
                 destruct r as [r|]; cbn;
                   [destruct (Response.state r);
                    [destruct (Response.type r =? "QUERY")%string|]|];
                   repeat match goal with
                          | |- context [if ?b then _ else _] => destruct b
                          end;
                   rewrite ?setCurrentDoorState_targetState; reflexivity.
           ++ elim Hne. unfold andThen, when.
              destruct r as [r|]; cbn;
                [destruct (Response.state r);
                 [destruct (Response.type r =? "QUERY")%string|]|];
                repeat match goal with
                       | |- context [if ?b then _ else _] => destruct b
                       end;
                rewrite ?setCurrentDoorState_targetState; reflexivity.
        -- elim Hne. unfold andThen, when.
           destruct r as [r|]; cbn;
             [destruct (Response.state r);
              [destruct (Response.type r =? "QUERY")%string|]|];
             rewrite ?setCurrentDoorState_targetState; reflexivity.
      * elim Hne. unfold andThen, when.
        destruct r as [r|]; cbn;
          [destruct (Response.state r);
           [destruct (Response.type r =? "QUERY")%string|]|];
          rewrite ?setCurrentDoorState_targetState; reflexivity.
      * elim Hne. reflexivity.
Qed.

Lemma messages_and_target_state_witness :
  let a := run AccessoryPlugin
             [DeviceFlags true true; SetTargetState (Some 0)] init in
  targetState
    (handleIncomingMessage AccessoryPlugin None
       (Some (StateChange "closed")) a)
  = TargetDoorState.OPEN.
Proof.
  exact (proj1 (proj2 (messages_and_target_state AccessoryPlugin None
                         (Some (StateChange "closed"))
                         (run AccessoryPlugin
                            [DeviceFlags true true; SetTargetState (Some 0)]
                            init))) eq_refl).
Defined.

(** ** Construction *)

(** X16: an accessory is set up only with all three connection parameters.
    The constructor of the first implementation and [configureDevice] of the
    second create the device exactly when the IP address, the API secret key
    and the API auth key are all given; then the device is created with
    these and a ping interval of 60000, receives [connect(true)] and nothing
    else, and both states are unknown.  The second implementation names the
    service "Remootio Device" when the name is missing or empty, so that its
    name is never empty; the first passes the name on as it is. *)
Theorem construction_needs_all_parameters (c : AccessoryConfig) :
  let complete :=
    configIpAddress c <> None /\ configApiSecretKey c <> None
    /\ configApiAuthKey c <> None in
  configureDevice None = None
  /\ (pluginConstructor c <> None <-> complete)
  /\ (configureDevice (Some c) <> None <-> complete)
  /\ (forall d,
        pluginConstructor c = Some d \/ configureDevice (Some c) = Some d ->
        accessory d = init
        /\ configIpAddress c = Some (deviceIpAddress d)
        /\ configApiSecretKey c = Some (deviceApiSecretKey d)
        /\ configApiAuthKey c = Some (deviceApiAuthKey d)
        /\ devicePingInterval d = 60000)
  /\ (forall d, pluginConstructor c = Some d -> serviceName d = configName c)
  /\ (forall d, configureDevice (Some c) = Some d ->
        exists n,
          serviceName d = Some n /\ n <> ""
          /\ (configName c = Some n \/ n = "Remootio Device")
          /\ (forall m, configName c = Some m -> m <> "" -> n = m)).
Proof.
  cbn zeta. unfold pluginConstructor, configureDevice.
  destruct (configIpAddress c) as [ip|], (configApiSecretKey c) as [sk|],
    (configApiAuthKey c) as [ak|];
    (split; [reflexivity|]);
    (split; [split; [intros H; repeat split; congruence
                    | intros (H1 & H2 & H3); congruence]|]);
    (split; [split; [intros H; repeat split; congruence
                    | intros (H1 & H2 & H3); congruence]|]);
    (split; [intros d [[= <-]|[= <-]]; repeat split|]);
    (split; [intros d [= <-]; reflexivity|]);
    intros d [= <-].
  exists (nameOrDefault (configName c)). cbn. split; [reflexivity|].
  unfold nameOrDefault. destruct (configName c) as [m|].
  - destruct (String.eqb_spec m "") as [->|Hm].
    + split; [discriminate|]. split; [now right|].
      intros m' [= <-] Hm'. now elim Hm'.
    + split; [exact Hm|]. split; [now left|].
      intros m' [= <-] _. reflexivity.
  - split; [discriminate|]. split; [now right|]. intros m' [=].
Qed.

Lemma construction_needs_all_parameters_witness :
  let c := mkConfig (Some "") (Some "192.168.1.20") (Some "secret")
             (Some "auth") in
  exists d,
    configureDevice (Some c) = Some d
    /\ serviceName d = Some "Remootio Device"
    /\ sent (device (accessory d)) = [Connect true].
Proof.
  pose (c := mkConfig (Some "") (Some "192.168.1.20") (Some "secret")
               (Some "auth")).
  destruct (construction_needs_all_parameters c)
    as (_ & _ & _ & Hinit & _ & _).
  eexists. split; [reflexivity|]. split; [reflexivity|].
  destruct (Hinit _ (or_intror (eq_refl : configureDevice (Some c) = Some _)))
    as (Hacc & _).
  exact (f_equal (fun x => sent (device x)) Hacc).
Defined.
